(** * Breast-Cancer-Histopathology: [src/enumerables.py] and
      [src/feature_selection.py]

    A shallow embedding of the validation-size parser [CVSplit.from_str] and
    of the feature-selection functions, over the IEEE-754 binary64
    specification of the Standard Library ([SpecFloat], precision 53,
    [emax] 1024), which is what a Python [float] and a NumPy [float64] are. *)

From Stdlib Require Import ZArith List String Ascii Bool Lia SpecFloat DecimalString.
From Stdlib Require Import DecimalNat Permutation Sorted.
Import ListNotations.

Local Open Scope string_scope.
Local Open Scope Z_scope.

(** * The Python runtime the code relies on *)

Module Py.

(** ** Exceptions and results *)

Inductive exn : Type :=
| ValueError (msg : string)
| OverflowError (msg : string)
| KeyError (key : string)
| NotImplementedError.

Inductive result (A : Type) : Type :=
| Ok (a : A)
| Raise (e : exn).
Arguments Ok {A} a.
Arguments Raise {A} e.

Definition bind {A B : Type} (r : result A) (k : A -> result B) : result B :=
  match r with
  | Ok a => k a
  | Raise e => Raise e
  end.

Definition is_ok {A : Type} (r : result A) : bool :=
  match r with Ok _ => true | Raise _ => false end.

Declare Scope py_scope.
Delimit Scope py_scope with py.
Notation "x <- a ;; b" := (bind a (fun x => b))
  (at level 61, a at next level, right associativity) : py_scope.

(** A comprehension [[f(x) for x in l]]: the first exception ends it. *)
Fixpoint for_each {A B : Type} (f : A -> result B) (l : list A)
  : result (list B) :=
  match l with
  | [] => Ok []
  | x :: l' => bind (f x) (fun y => bind (for_each f l') (fun ys => Ok (y :: ys)))
  end.

(** ** Floats: IEEE-754 binary64 *)

Definition prec : Z := 53.
Definition emax : Z := 1024.

Definition float : Type := spec_float.

Definition nan : float := S754_nan.
Definition inf (neg : bool) : float := S754_infinity neg.

(** [float(z)] of a Python [int], round to nearest even. *)
Definition Z2F (z : Z) : float := binary_normalize prec emax z 0 false.

(** The correctly rounded quotient [n / d] of two positive integers, as
    [SFdiv] computes it for two mantissas. *)
Definition F_of_ratio (neg : bool) (n d : positive) : float :=
  let '(q, e, l) := SFdiv_core_binary prec emax (Zpos n) 0 (Zpos d) 0 in
  binary_round_aux prec emax neg q e l.

(** The float nearest to [m * 10 ^ x]. *)
Definition F_of_decimal (neg : bool) (m : N) (x : Z) : float :=
  match m with
  | N0 => S754_zero neg
  | Npos p =>
      if 0 <=? x
      then binary_normalize prec emax (cond_Zopp neg (Zpos p * 10 ^ x)) 0 neg
      else F_of_ratio neg p (Z.to_pos (10 ^ (- x)))
  end.

Definition fadd : float -> float -> float := SFadd prec emax.
Definition fsub : float -> float -> float := SFsub prec emax.
Definition fmul : float -> float -> float := SFmul prec emax.
Definition fdiv : float -> float -> float := SFdiv prec emax.
Definition fsqrt : float -> float := SFsqrt prec emax.
Definition fabs : float -> float := SFabs.

Definition feqb : float -> float -> bool := SFeqb.
Definition fltb : float -> float -> bool := SFltb.
Definition fleb : float -> float -> bool := SFleb.

(** [math.isnan] *)
Definition isnan (f : float) : bool :=
  match f with S754_nan => true | _ => false end.

(** [float.is_integer]: finite and equal to its floor. *)
Definition is_integer (f : float) : bool :=
  match f with
  | S754_zero _ => true
  | S754_finite _ m e =>
      if 0 <=? e then true else Zpos m mod 2 ^ (- e) =? 0
  | S754_infinity _ | S754_nan => false
  end.

(** [n / d] rounded to the nearest integer, ties to the even one. *)
Definition div_half_even (n d : Z) : Z :=
  let q := n / d in
  match 2 * (n mod d) ?= d with
  | Lt => q
  | Gt => q + 1
  | Eq => if Z.even q then q else q + 1
  end.

(** [round(f)] with one argument: the nearest [int]; infinities and NaN
    have none. *)
Definition round (f : float) : result Z :=
  match f with
  | S754_nan => Raise (ValueError "cannot convert float NaN to integer")
  | S754_infinity _ =>
      Raise (OverflowError "cannot convert float infinity to integer")
  | S754_zero _ => Ok 0
  | S754_finite s m e =>
      Ok (cond_Zopp s (if 0 <=? e then Zpos m * 2 ^ e
                       else div_half_even (Zpos m) (2 ^ (- e))))
  end.

(** [f == z] for a float and an [int]: Python compares the exact values. *)
Definition feqb_int (f : float) (z : Z) : bool :=
  match f with
  | S754_zero _ => z =? 0
  | S754_finite s m e =>
      if 0 <=? e then cond_Zopp s (Zpos m * 2 ^ e) =? z
      else cond_Zopp s (Zpos m) =? z * 2 ^ (- e)
  | S754_infinity _ | S754_nan => false
  end.

(** ** [float(s)] for a [str] *)

Definition is_space (c : ascii) : bool :=
  let n := nat_of_ascii c in
  (Nat.eqb n 32 || (Nat.leb 9 n && Nat.leb n 13))%bool.

Definition is_digit (c : ascii) : bool :=
  let n := nat_of_ascii c in (Nat.leb 48 n && Nat.leb n 57)%bool.

Definition digit_val (c : ascii) : N := N.of_nat (nat_of_ascii c - 48).

Definition lower (c : ascii) : ascii :=
  let n := nat_of_ascii c in
  if (Nat.leb 65 n && Nat.leb n 90)%bool then ascii_of_nat (n + 32) else c.

Fixpoint lstrip (l : list ascii) : list ascii :=
  match l with
  | c :: l' => if is_space c then lstrip l' else l
  | [] => []
  end.

Definition strip (l : list ascii) : list ascii :=
  rev (lstrip (rev (lstrip l))).

(** A run of digits, single underscores allowed between two digits:
    the value read so far, the number of digits read, and the rest. *)
Fixpoint digits_from (l : list ascii) (acc : N) (cnt : nat)
  : N * nat * list ascii :=
  match l with
  | c :: l' =>
      if is_digit c then digits_from l' (10 * acc + digit_val c)%N (S cnt)
      else
        match cnt, l' with
        | S _, d :: _ =>
            if (Ascii.eqb c "_" && is_digit d)%bool
            then digits_from l' acc cnt
            else (acc, cnt, l)
        | _, _ => (acc, cnt, l)
        end
  | [] => (acc, cnt, [])
  end.

Definition sign_of (l : list ascii) : bool * list ascii :=
  match l with
  | "-"%char :: l' => (true, l')
  | "+"%char :: l' => (false, l')
  | _ => (false, l)
  end.

(** The exponent part, if there is one: [e] or [E], a sign, digits. *)
Definition exponent_of (l : list ascii) : option Z :=
  match l with
  | [] => Some 0
  | c :: l' =>
      if Ascii.eqb (lower c) "e" then
        let '(neg, l'') := sign_of l' in
        match digits_from l'' 0%N 0%nat with
        | (x, S _, []) => Some (cond_Zopp neg (Z.of_N x))
        | _ => None
        end
      else None
  end.

(** A decimal literal: digits, a point, digits (one side may be empty),
    an exponent. *)
Definition decimal_of (neg : bool) (l : list ascii) : option float :=
  let '(ip, ni, l1) := digits_from l 0%N 0%nat in
  let '(m, nf, l2) :=
    match l1 with
    | "."%char :: l1' =>
        let '(m, n, l2) := digits_from l1' ip 0%nat in (m, n, l2)
    | _ => (ip, 0%nat, l1)
    end in
  match (ni + nf)%nat with
  | O => None
  | S _ =>
      match exponent_of l2 with
      | Some x => Some (F_of_decimal neg m (x - Z.of_nat nf))
      | None => None
      end
  end.

(** ** A [str], given by its UTF-8 bytes *)

(** What a byte opens: a code point of its own when below 128, else a
    sequence with so many bytes to follow, the bits read so far and the
    least code point that may be written at that length. *)
Inductive opening : Type :=
| Single (c : option N)
| Pending (need : nat) (acc lo : N).

Definition open_byte (n : N) : opening :=
  (if n <? 0x80 then Single (Some n)
   else if (0xC2 <=? n) && (n <? 0xE0) then Pending 1 (n - 0xC0) 0x80
   else if (0xE0 <=? n) && (n <? 0xF0) then Pending 2 (n - 0xE0) 0x800
   else if (0xF0 <=? n) && (n <? 0xF5) then Pending 3 (n - 0xF0) 0x10000
   else Single None)%N%bool.

(** A code point written out in full: not shorter than it could be, no
    surrogate, at most U+10FFFF. *)
Definition closed (lo c : N) : option N :=
  (if (lo <=? c) && (c <=? 0x10FFFF)
      && negb ((0xD800 <=? c) && (c <=? 0xDFFF))
   then Some c else None)%N%bool.

(** The code points of a byte string; [None] stands where the bytes are
    not UTF-8 (no [str] has such bytes). *)
Fixpoint decode (need : nat) (acc lo : N) (l : list ascii)
  : list (option N) :=
  match l with
  | [] => match need with O => [] | S _ => [None] end
  | b :: l' =>
      let n := N_of_ascii b in
      let fresh :=
        match open_byte n with
        | Single c => c :: decode 0 0%N 0%N l'
        | Pending k a lo' => decode k a lo' l'
        end in
      match need with
      | O => fresh
      | S k =>
          if ((0x80 <=? n) && (n <? 0xC0))%N%bool then
            let acc' := (acc * 64 + (n - 0x80))%N in
            match k with
            | O => closed lo acc' :: decode 0 0%N 0%N l'
            | S _ => decode k acc' lo l'
            end
          else None :: fresh
      end
  end.

Definition code_points (s : string) : list (option N) :=
  decode 0 0%N 0%N (list_ascii_of_string s).

(** The white space of [str.isspace] above U+007E, and the runs of
    decimal digits (first code point, length; the digits of a run are
    0 to 9 in turn), as Unicode 14.0 has them in CPython 3.11. *)
Definition unicode_spaces : list N :=
  [
    0x0085; 0x00A0; 0x1680; 0x2000; 0x2001; 0x2002; 0x2003; 0x2004;
    0x2005; 0x2006; 0x2007; 0x2008; 0x2009; 0x200A; 0x2028; 0x2029;
    0x202F; 0x205F; 0x3000
  ]%N.

Definition decimal_runs : list (N * N) :=
  [
    (0x0660, 10); (0x06F0, 10); (0x07C0, 10); (0x0966, 10); (0x09E6, 10);
    (0x0A66, 10); (0x0AE6, 10); (0x0B66, 10); (0x0BE6, 10); (0x0C66, 10);
    (0x0CE6, 10); (0x0D66, 10); (0x0DE6, 10); (0x0E50, 10); (0x0ED0, 10);
    (0x0F20, 10); (0x1040, 10); (0x1090, 10); (0x17E0, 10); (0x1810, 10);
    (0x1946, 10); (0x19D0, 10); (0x1A80, 10); (0x1A90, 10); (0x1B50, 10);
    (0x1BB0, 10); (0x1C40, 10); (0x1C50, 10); (0xA620, 10); (0xA8D0, 10);
    (0xA900, 10); (0xA9D0, 10); (0xA9F0, 10); (0xAA50, 10); (0xABF0, 10);
    (0xFF10, 10); (0x104A0, 10); (0x10D30, 10); (0x11066, 10); (0x110F0, 10);
    (0x11136, 10); (0x111D0, 10); (0x112F0, 10); (0x11450, 10); (0x114D0, 10);
    (0x11650, 10); (0x116C0, 10); (0x11730, 10); (0x118E0, 10); (0x11950, 10);
    (0x11C50, 10); (0x11D50, 10); (0x11DA0, 10); (0x16A60, 10); (0x16AC0, 10);
    (0x16B50, 10); (0x1D7CE, 50); (0x1E140, 10); (0x1E2F0, 10); (0x1E950, 10);
    (0x1FBF0, 10)
  ]%N.

Definition unicode_space (c : N) : bool := existsb (N.eqb c) unicode_spaces.

Definition unicode_decimal (c : N) : option N :=
  match find (fun r => (fst r <=? c) && (c <? fst r + snd r))%N%bool
             decimal_runs with
  | Some r => Some ((c - fst r) mod 10)%N
  | None => None
  end.

(** What [float] makes of a [str] before it reads it: a string of ASCII
    is taken as it is; in any other, a space stands for each white space
    and an ASCII digit for each decimal digit, and the string ends in a
    question mark at the first code point that is neither. *)
Fixpoint to_ascii (l : list (option N)) : list ascii :=
  match l with
  | [] => []
  | Some c :: l' =>
      if (c <? 127)%N then ascii_of_N c :: to_ascii l'
      else if unicode_space c then " "%char :: to_ascii l'
      else
        match unicode_decimal c with
        | Some d => ascii_of_N (48 + d) :: to_ascii l'
        | None => ["?"%char]
        end
  | None :: _ => ["?"%char]
  end.

Definition is_ascii_point (c : option N) : bool :=
  match c with Some n => (n <? 128)%N | None => false end.

Definition ascii_text (s : string) : list ascii :=
  let l := code_points s in
  if forallb is_ascii_point l then list_ascii_of_string s else to_ascii l.

(** [float(s)]: the text is brought to ASCII and surrounding white space
    is dropped; then a sign and one of [inf], [infinity], [nan] (any case)
    or a decimal literal.  [None] stands for the [ValueError] of an
    unparsable string. *)
Definition float_of_str (s : string) : option float :=
  let '(neg, l) := sign_of (strip (ascii_text s)) in
  let w := string_of_list_ascii (map lower l) in
  if (String.eqb w "inf" || String.eqb w "infinity")%bool then Some (inf neg)
  else if String.eqb w "nan" then Some nan
  else decimal_of neg l.

End Py.

(** * [src/enumerables.py] *)

Module Enumerables.
Import Py.

(** [class CVSplit(Enum)]: five members, each with a [str] value. *)
Inductive CVSplit : Type :=
| KFold3
| KFold5
| KFold10
| KFold20
| Holdout.

Definition value (c : CVSplit) : string :=
  match c with
  | KFold3 => "3-fold"
  | KFold5 => "5-fold"
  | KFold10 => "10-fold"
  | KFold20 => "20-fold"
  | Holdout => "holdout"
  end.

Definition members : list CVSplit :=
  [KFold3; KFold5; KFold10; KFold20; Holdout].

(** The objects [from_str] hands to the enumeration's constructor. *)
Inductive pyval : Type :=
| VStr (s : string)
| VFloat (f : float).

(** Python's [==]: a [str] never equals a [float]. *)
Definition pyval_eqb (a b : pyval) : bool :=
  match a, b with
  | VStr s, VStr t => String.eqb s t
  | VFloat f, VFloat g => feqb f g
  | _, _ => false
  end.

(** [CVSplit(v)]: the member whose value equals [v]; the enumeration
    defines no [_missing_] hook, so any other [v] is a [ValueError]
    (whose text in Python starts with the [repr] of [v]). *)
Definition not_a_member : exn := ValueError "is not a valid CVSplit".

Definition CVSplit_call (v : pyval) : result CVSplit :=
  match find (fun m => pyval_eqb (VStr (value m)) v) members with
  | Some m => Ok m
  | None => Raise not_a_member
  end.

Inductive warning : Type :=
| UserWarning (msg : string).

Definition not_a_float : exn :=
  ValueError "Could not convert a `... -size` argument (e.g. --htune-val-size) value to float".
Definition nan_size : exn := ValueError "NaN is not a valid size".
Definition not_positive : exn :=
  ValueError "`... -size` arguments (e.g. --htune-val-size) must be positive".
Definition is_one : exn :=
  ValueError "'1' is not a valid value for `... -size` arguments (e.g. --htune-val-size).".
Definition not_an_integer : exn :=
  ValueError "`... -size` arguments (e.g. --htune-val-size) greater than 1, as it specifies the `k` in k-fold".
Definition not_rounded : exn :=
  ValueError "`--htune-val-size` must be an integer if greater than 1, as it specifies the `k` in k-fold".
Definition large_k : warning :=
  UserWarning "`--htune-val-size` greater than 10 is not recommended.".

(** [CVSplit.from_str]: the warnings issued, and what is returned or
    raised. *)
Definition from_str (s : string) : list warning * result CVSplit :=
  match float_of_str s with
  | None => ([], Raise not_a_float)
  | Some cv =>
      if isnan cv then ([], Raise nan_size)
      else if fleb cv (Z2F 0) then ([], Raise not_positive)
      else if feqb cv (Z2F 1) then ([], Raise is_one)
      else if (fltb (Z2F 0) cv && fltb cv (Z2F 1))%bool then ([], Ok Holdout)
      else if (fltb (Z2F 1) cv && negb (is_integer cv))%bool
      then ([], Raise not_an_integer)
      else
        match round cv with
        | Raise e => ([], Raise e)
        | Ok r =>
            if negb (feqb_int cv r) then ([], Raise not_rounded)
            else
              let w := if fltb (Z2F 10) cv then [large_k] else [] in
              if fltb (Z2F 1) cv then (w, CVSplit_call (VFloat cv))
              else (w, CVSplit_call (VStr s))
        end
  end.

End Enumerables.

(** ** [CVSplit.to_string] *)

Module CVSplitText.
Import Py Enumerables.

Section WithFormat.

(** How an f-string shows a float ([format(x, "")]), taken as it comes. *)
Variable format_float : float -> string.

Definition is_holdout (c : CVSplit) : bool :=
  match c with Holdout => true | _ => false end.

(** [to_string] *)
Definition to_string (c : CVSplit) (v : float) : string :=
  if negb (is_holdout c) then value c
  else format_float (fmul v (Z2F 100)) ++ "%-holdout".

End WithFormat.

End CVSplitText.

(** * The part of pandas and NumPy the code uses *)

Module Pandas.
Import Py.

(** A [Series] of floats: index labels with their values, in order. *)
Definition Series : Type := list (string * float).

(** A [DataFrame] of floats: the number of rows of its index, and its
    columns by label, each with its values by row. *)
Record DataFrame : Type := mkFrame {
  nrows : nat;
  cols : list (string * list float)
}.

(** A two-dimensional [ndarray], by columns. *)
Record ndarray : Type := mkArray {
  arows : nat;
  acols : list (list float)
}.

Definition columns (df : DataFrame) : list string := map fst (cols df).

Definition has_column (name : string) (df : DataFrame) : bool :=
  existsb (String.eqb name) (columns df).

(** [df.shape] *)
Definition shape (df : DataFrame) : nat * nat :=
  (nrows df, List.length (cols df)).

(** [len(df)] *)
Definition len (df : DataFrame) : Z := Z.of_nat (nrows df).

(** [df.drop(columns=name)]; without such a column it is
    [KeyError("['name'] not found in axis")]. *)
Definition not_in_axis (name : string) : exn :=
  KeyError ("['" ++ name ++ "'] not found in axis").

Definition drop (name : string) (df : DataFrame) : result DataFrame :=
  if has_column name df
  then Ok (mkFrame (nrows df)
             (filter (fun c => negb (String.eqb (fst c) name)) (cols df)))
  else Raise (not_in_axis name).

(** [df[name].copy()] *)
Definition getitem (name : string) (df : DataFrame) : result (list float) :=
  match find (fun c => String.eqb (fst c) name) (cols df) with
  | Some c => Ok (snd c)
  | None => Raise (KeyError name)
  end.

(** [y == z], element by element. *)
Definition eq_mask (y : list float) (z : Z) : list bool :=
  map (fun v => feqb v (Z2F z)) y.

(** The values at the rows where the mask holds. *)
Fixpoint select {A : Type} (mask : list bool) (l : list A) : list A :=
  match mask, l with
  | b :: mask', x :: l' =>
      if b then x :: select mask' l' else select mask' l'
  | _, _ => []
  end.

Definition count_true (mask : list bool) : nat :=
  List.length (filter (fun b => b) mask).

(** [df.loc[mask, :]] *)
Definition loc_rows (mask : list bool) (df : DataFrame) : DataFrame :=
  mkFrame (count_true mask)
          (map (fun c => (fst c, select mask (snd c))) (cols df)).

(** [df.loc[:, labels]] *)
Definition loc_cols (labels : list string) (df : DataFrame)
  : result DataFrame :=
  bind (for_each (fun l => bind (getitem l df) (fun c => Ok (l, c))) labels)
       (fun cs => Ok (mkFrame (nrows df) cs)).

(** A reduction along axis 0: one value per column. *)
Definition reduce (f : list float -> float) (df : DataFrame) : Series :=
  map (fun c => (fst c, f (snd c))) (cols df).

(** Arithmetic on one [Series], and on two with the same index, where
    pandas pairs the values by position. *)
Definition smap (f : float -> float) (s : Series) : Series :=
  map (fun p => (fst p, f (snd p))) s.

Fixpoint szip (f : float -> float -> float) (a b : Series) : Series :=
  match a, b with
  | (l, x) :: a', (_, y) :: b' => (l, f x y) :: szip f a' b'
  | _, _ => []
  end.

Definition index (s : Series) : list string := map fst s.

(** [s.sort_values(ascending=False)]: largest first, NaN last.  Scores
    that compare equal are left here in the order they had; pandas sorts
    with NumPy's quicksort, which promises no order among them, and
    nothing below relies on one. *)
Fixpoint insert_desc (p : string * float) (s : Series) : Series :=
  match s with
  | [] => [p]
  | q :: s' =>
      if fltb (snd p) (snd q) then q :: insert_desc p s' else p :: s
  end.

Definition sort_values_desc (s : Series) : Series :=
  (fold_right insert_desc [] (filter (fun p => negb (isnan (snd p))) s)
     ++ filter (fun p => isnan (snd p)) s)%list.

(** [l[:n]] *)
Definition slice_to {A : Type} (n : Z) (l : list A) : list A :=
  if 0 <=? n then firstn (Z.to_nat n) l
  else firstn (List.length l - Z.to_nat (- n)) l.

(** [df.to_numpy()], as the estimators of scikit-learn take a frame. *)
Definition to_numpy (df : DataFrame) : ndarray :=
  mkArray (nrows df) (map snd (cols df)).

(** [str(n)] for a natural number. *)
Definition str_of_nat (n : nat) : string :=
  DecimalString.NilZero.string_of_uint (Nat.to_uint n).

(** [DataFrame(data=a, columns=[f"{prefix}{i}" for i in range(a.shape[1])])] *)
Definition frame_of_array (prefix : string) (a : ndarray) : DataFrame :=
  mkFrame (arows a)
    (combine (map (fun i => prefix ++ str_of_nat i) (seq 0 (List.length (acols a))))
             (acols a)).

End Pandas.

(** * [src/feature_selection.py] *)

Module FeatureSelection.
Import Py Pandas.
Local Open Scope py_scope.

(** What the module imports from NumPy, pandas, scikit-learn,
    featuretools and [src.constants]: the numerical kernels are taken as
    they come, only their use is modelled. *)
Class Externals : Type := {
  (** [np.mean(x, axis=0)] and [np.std(x, ddof=ddof, axis=0)], per column *)
  np_mean : list float -> float;
  np_std : Z -> list float -> float;
  (** [X.corrwith(y, method=method)], per column *)
  corrwith : string -> list float -> list float -> result float;
  (** [sklearn.metrics.roc_auc_score(y_true, y_score)] *)
  roc_auc_score : list float -> list float -> result float;
  (** [PCA(n, svd_solver="full", whiten=True).fit_transform] *)
  PCA_fit_transform : Z -> ndarray -> result ndarray;
  (** [KernelPCA(n, kernel="rbf", random_state=seed, n_jobs=-1).fit_transform] *)
  KernelPCA_fit_transform : Z -> Z -> ndarray -> result ndarray;
  (** [featuretools.selection] *)
  remove_single_value_features : DataFrame -> DataFrame;
  remove_low_information_features : DataFrame -> DataFrame;
  remove_highly_correlated_features : float -> DataFrame -> DataFrame;
  (** What a file holds; [df.to_json(path)] writes [to_json df] to it and
      [pd.read_json(path)] reads it back *)
  json : Type;
  to_json : DataFrame -> json;
  read_json : json -> DataFrame;
  (** [src.constants.SEED] *)
  SEED : Z
}.

(** The literal [0.5]. *)
Definition half : float := F_of_decimal false 5 (-1).

(** The default [pct_corr_threshold] of
    [remove_highly_correlated_features]: [0.95]. *)
Definition pct_corr_threshold : float := F_of_decimal false 95 (-2).

Definition str_lower (s : string) : string :=
  string_of_list_ascii (map lower (list_ascii_of_string s)).

Section WithExternals.
Context {ext : Externals}.

(** [cohens_d] *)
Definition cohens_d (df : DataFrame) : result Series :=
  X <- drop "target" df ;;
  y <- getitem "target" df ;;
  let x1 := loc_rows (eq_mask y 0) X in
  let x2 := loc_rows (eq_mask y 1) X in
  let n1 := len x1 - 1 in
  let n2 := len x2 - 1 in
  let sd1 := reduce (np_std 1) x1 in
  let sd2 := reduce (np_std 1) x2 in
  let sd_pools :=
    smap fsqrt
      (smap (fun v => fdiv v (Z2F (n1 + n2)))
         (szip fadd (smap (fmul (Z2F n1)) sd1) (smap (fmul (Z2F n2)) sd2))) in
  let m1 := reduce np_mean x1 in
  let m2 := reduce np_mean x2 in
  let ds := szip fdiv (smap fabs (szip fsub m1 m2)) sd_pools in
  Ok ds.

(** [auroc] *)
Definition auroc (df : DataFrame) : result Series :=
  X <- drop "target" df ;;
  y <- getitem "target" df ;;
  aucs <- for_each (fun c => a <- roc_auc_score y (snd c) ;; Ok (fst c, a))
                   (cols X) ;;
  let rescaled := smap fabs (smap (fun a => fsub a half) aucs) in
  Ok rescaled.

(** [correlations] *)
Definition correlations (df : DataFrame) (method : string) : result Series :=
  X <- drop "target" df ;;
  y <- getitem "target" df ;;
  r <- for_each (fun c => a <- corrwith method (snd c) y ;; Ok (fst c, a))
                (cols X) ;;
  Ok (smap fabs r).

(** [remove_correlated_custom] *)
Definition remove_correlated_custom (df : DataFrame) (threshold : float)
  : result DataFrame :=
  Raise NotImplementedError.

(** ** What [remove_weak_features] does to the world *)

Inductive stage : Type :=
| SingleValue
| LowInformation
| HighlyCorrelated.

Inductive event : Type :=
| Printed (text : string) (shape : option (nat * nat))
| Called (s : stage) (arg : DataFrame)
| ReadCache
| WroteCache (content : json).

(** What a call returns: a frame, or Python's [None]. *)
Inductive returned : Type :=
| RFrame (df : DataFrame)
| RNone.

(** The events of a call in order, the file at [UNCORRELATED] after it
    ([None]: no such file), and the value returned. *)
Record outcome : Type := mkOutcome {
  trace : list event;
  cache_after : option json;
  ret : returned
}.

(** [remove_weak_features], started with the file at [UNCORRELATED]
    being [cache].  The path is a constant of [src.constants]; the last
    line printed shows it, here under its name. *)
Definition remove_weak_features (df : DataFrame) (decorrelate : bool)
    (cache : option json) : outcome :=
  match cache with
  | Some text => mkOutcome [ReadCache] cache (RFrame (read_json text))
  | None =>
      let df_v := remove_single_value_features df in
      let df_i := remove_low_information_features df_v in
      let t :=
        [ Printed "Starting shape: " (Some (shape df));
          Called SingleValue df;
          Printed "Shape after removing constant features: " (Some (shape df_v));
          Called LowInformation df_v;
          Printed "Shape after removing low-information features: "
                  (Some (shape df_i)) ] in
      if negb decorrelate then mkOutcome t None (RFrame df_i)
      else
        let df_c := remove_highly_correlated_features pct_corr_threshold df_i in
        mkOutcome
          (t ++
           [ Printed "Removing highly-correlated features.NOTE: this could take a while when there are 1000+ features." None;
             Called HighlyCorrelated df_i;
             Printed "Shape after removing highly-correlated features: "
                     (Some (shape df_c));
             WroteCache (to_json df_c);
             Printed "Saved uncorrelated features to UNCORRELATED" None ])%list
          (Some (to_json df_c))
          RNone
  end.

(** [select_features_by_univariate_rank] *)
Definition select_features_by_univariate_rank (df : DataFrame)
    (metric : string) (n_features : Z) : result DataFrame :=
  importances <-
    (if String.eqb (str_lower metric) "d" then
       s <- cohens_d df ;; Ok (sort_values_desc s)
     else if String.eqb (str_lower metric) "auc" then
       s <- auroc df ;; Ok (sort_values_desc s)
     else if (String.eqb (str_lower metric) "pearson"
              || String.eqb (str_lower metric) "spearman")%bool then
       s <- correlations df metric ;; Ok (sort_values_desc s)
     else Raise (ValueError "Invalid metric")) ;;
  let strongest := slice_to n_features importances in
  loc_cols (index strongest) df.

(** [get_pca_features] *)
Definition get_pca_features (df : DataFrame) (n_features : Z)
  : result DataFrame :=
  reduced <- PCA_fit_transform n_features (to_numpy df) ;;
  Ok (frame_of_array "pca-" reduced).

(** [get_kernel_pca_features] *)
Definition get_kernel_pca_features (df : DataFrame) (n_features : Z)
  : result DataFrame :=
  reduced <- KernelPCA_fit_transform n_features SEED (to_numpy df) ;;
  Ok (frame_of_array "kpca-" reduced).

End WithExternals.

End FeatureSelection.

(** ** [select_stepwise_features] *)

Module Stepwise.
Import Py Pandas.

(** What the function takes from [src._sequential] and pandas:
    [SequentialFeatureSelector(estimator, n_features_to_select=n,
    direction=direction, scoring="accuracy", cv=3, n_jobs=-1)], fitted on
    [X] and [y] and asked for [get_support()]; and [astype(int)] on a
    column, whose integers are shown as floats. *)
Class Selector : Type := {
  estimator : Type;
  astype_int : list float -> result (list float);
  fit_support :
    estimator -> Z -> string -> DataFrame -> list float -> result (list bool)
}.

(** What a call can raise: the exceptions above, and the [IndexError] of a
    boolean column index of the wrong length. *)
Inductive raised : Type :=
| Exn (e : exn)
| IndexError (msg : string).

Definition lift {A : Type} (r : result A) : A + raised :=
  match r with
  | Ok a => inl a
  | Raise e => inr (Exn e)
  end.

Definition and_then {A B : Type} (r : A + raised) (k : A -> B + raised)
  : B + raised :=
  match r with
  | inl a => k a
  | inr e => inr e
  end.

(** [df.loc[:, mask]] for a boolean mask *)
Definition loc_mask (mask : list bool) (df : DataFrame) : DataFrame + raised :=
  if Nat.eqb (List.length mask) (List.length (cols df))
  then inl (mkFrame (nrows df) (select mask (cols df)))
  else inr (IndexError "Boolean index has wrong length").

(** [df[name] = col]: the columns of that name are overwritten, or the
    column is added last. *)
Definition setitem (name : string) (col : list float) (df : DataFrame)
  : DataFrame :=
  if has_column name df
  then mkFrame (nrows df)
         (map (fun c => if String.eqb (fst c) name then (name, col) else c)
              (cols df))
  else mkFrame (nrows df) (cols df ++ [(name, col)]).

Section WithSelector.
Context {sel : Selector}.

(** [select_stepwise_features] *)
Definition select_stepwise_features (df : DataFrame) (est : estimator)
    (n_features : Z) (direction : string) : DataFrame + raised :=
  and_then (lift (drop "target" df)) (fun X =>
  and_then (lift (bind (getitem "target" df) astype_int)) (fun y =>
  and_then (lift (fit_support est n_features direction X y)) (fun column_idx =>
  and_then (loc_mask column_idx X) (fun reduced =>
  inl (setitem "target" y reduced))))).

End WithSelector.

End Stepwise.

(** * The specification's formula for Cohen's d *)

Module Spec.
Import Py Pandas FeatureSelection.

Section WithExternals.
Context {ext : Externals}.

(** The rows of a column whose target is [label]. *)
Definition group (y : list float) (label : Z) (col : list float)
  : list float :=
  select (eq_mask y label) col.

(** The number of rows whose target is [label]. *)
Definition group_size (y : list float) (label : Z) : Z :=
  Z.of_nat (count_true (eq_mask y label)).

(** [d = |mean(group1) - mean(group0)| /
         sqrt(((n1-1)*sd1 + (n0-1)*sd0) / (n1+n0-2))], with the sample
    standard deviations ([ddof = 1]) of the two groups. *)
Definition cohens_d_spec (y col : list float) : float :=
  let n1 := group_size y 1 in
  let n0 := group_size y 0 in
  let sd1 := np_std 1 (group y 1 col) in
  let sd0 := np_std 1 (group y 0 col) in
  fdiv (fabs (fsub (np_mean (group y 1 col)) (np_mean (group y 0 col))))
       (fsqrt (fdiv (fadd (fmul (Z2F (n1 - 1)) sd1) (fmul (Z2F (n0 - 1)) sd0))
                    (Z2F (n1 + n0 - 2)))).

End WithExternals.

(** The target with its two labels exchanged: [1 - y]. *)
Definition swap_labels (df : DataFrame) : DataFrame :=
  mkFrame (nrows df)
    (map (fun c => if String.eqb (fst c) "target"
                   then (fst c, map (fsub (Z2F 1)) (snd c)) else c)
         (cols df)).

(** A target of zeros and ones. *)
Definition binary (y : list float) : Prop :=
  Forall (fun v => feqb v (Z2F 0) = true \/ feqb v (Z2F 1) = true) y.


End Spec.

(** * A plain instance of the externals

    Textbook formulas in binary64, for running the functions above on
    examples; the libraries' own algorithms differ in how they sum. *)

Module Plain.
Import Py Pandas FeatureSelection.

Definition fsum (l : list float) : float := fold_left fadd l (Z2F 0).

Definition flen (l : list float) : Z := Z.of_nat (List.length l).

Definition mean (l : list float) : float := fdiv (fsum l) (Z2F (flen l)).

Definition centred (l : list float) : list float :=
  map (fun x => fsub x (mean l)) l.

Definition std (ddof : Z) (l : list float) : float :=
  fsqrt (fdiv (fsum (map (fun d => fmul d d) (centred l)))
              (Z2F (flen l - ddof))).

Fixpoint dot (a b : list float) : float :=
  match a, b with
  | x :: a', y :: b' => fadd (fmul x y) (dot a' b')
  | _, _ => Z2F 0
  end.

Definition pearson (a b : list float) : float :=
  let ca := centred a in
  let cb := centred b in
  fdiv (dot ca cb) (fsqrt (fmul (dot ca ca) (dot cb cb))).

(** Twice the average rank of [x] among [l]. *)
Definition rank2 (l : list float) (x : float) : float :=
  Z2F (Z.of_nat (2 * List.length (filter (fun v => fltb v x) l)
                 + List.length (filter (fun v => feqb v x) l) + 1)).

Definition corr (method : string) (a b : list float) : result float :=
  if String.eqb method "pearson" then Ok (pearson a b)
  else if String.eqb method "spearman"
  then Ok (pearson (map (rank2 a) a) (map (rank2 b) b))
  else Raise (ValueError "method must be either 'pearson', 'spearman', 'kendall', or a callable").

(** The area under the ROC curve as the share of (positive, negative)
    pairs the score orders rightly, ties counting for a half. *)
Definition pair_score (p n : float) : Z :=
  if fltb n p then 2 else if feqb n p then 1 else 0.

Definition auc (y score : list float) : result float :=
  let pos := select (eq_mask y 1) score in
  let neg := select (map negb (eq_mask y 1)) score in
  match pos, neg with
  | _ :: _, _ :: _ =>
      let won :=
        fold_left Z.add
          (flat_map (fun p => map (pair_score p) neg) pos) 0 in
      Ok (fdiv (Z2F won) (Z2F (2 * flen pos * flen neg)))
  | _, _ =>
      Raise (ValueError "Only one class present in y_true. ROC AUC score is not defined in that case.")
  end.

(** In place of a principal-component projection: the centred columns,
    the first [n] of them. *)
Definition first_centred (n : Z) (a : ndarray) : result ndarray :=
  if n <? 0 then Raise (ValueError "n_components must be non-negative")
  else Ok (mkArray (arows a) (firstn (Z.to_nat n) (map centred (acols a)))).

Definition single_valued (l : list float) : bool :=
  match l with
  | [] => true
  | x :: l' => forallb (fun v => feqb v x) l'
  end.

Definition drop_single_valued (df : DataFrame) : DataFrame :=
  mkFrame (nrows df) (filter (fun c => negb (single_valued (snd c))) (cols df)).

Definition drop_all_nan (df : DataFrame) : DataFrame :=
  mkFrame (nrows df)
    (filter (fun c => negb (forallb isnan (snd c))) (cols df)).

(** A column goes when it correlates above the threshold with one
    already kept. *)
Fixpoint decorrelated (threshold : float) (kept todo : list (string * list float))
  : list (string * list float) :=
  match todo with
  | [] => rev kept
  | c :: todo' =>
      if existsb (fun k => fltb threshold (fabs (pearson (snd k) (snd c)))) kept
      then decorrelated threshold kept todo'
      else decorrelated threshold (c :: kept) todo'
  end.

Definition drop_correlated (threshold : float) (df : DataFrame) : DataFrame :=
  mkFrame (nrows df) (decorrelated threshold [] (cols df)).

#[export] Instance externals : Externals := {|
  np_mean := mean;
  np_std := std;
  corrwith := corr;
  roc_auc_score := auc;
  PCA_fit_transform := first_centred;
  KernelPCA_fit_transform := fun n _ => first_centred n;
  remove_single_value_features := drop_single_valued;
  remove_low_information_features := drop_all_nan;
  remove_highly_correlated_features := drop_correlated;
  json := DataFrame;
  to_json := fun df => df;
  read_json := fun df => df;
  SEED := 0
|}.

(** Four samples, two features, a target. *)
Definition toy : DataFrame :=
  mkFrame 4
    [ ("size", map Z2F [1; 2; 4; 7]);
      ("shade", map Z2F [3; 3; 2; 5]);
      ("target", map Z2F [0; 0; 1; 1]) ].

End Plain.

(** * Facts about binary64 comparisons and integers *)

Module FloatFacts.
Import Py.

Lemma Z2F_0 : Z2F 0 = S754_zero false.
Proof. reflexivity. Qed.

Lemma Z2F_1 : Z2F 1 = S754_finite false 4503599627370496 (-52).
Proof. vm_compute. reflexivity. Qed.

Lemma Z2F_2 : Z2F 2 = S754_finite false 4503599627370496 (-51).
Proof. vm_compute. reflexivity. Qed.

Lemma Z2F_10 : Z2F 10 = S754_finite false 5629499534213120 (-49).
Proof. vm_compute. reflexivity. Qed.

Lemma compare_antisym (a b : float) :
  SFcompare a b = option_map CompOpp (SFcompare b a).
Proof.
  destruct a as [sa | sa | | sa ma ea], b as [sb | sb | | sb mb eb];
    cbn; try reflexivity;
    try (destruct sa; reflexivity); try (destruct sb; reflexivity);
    try (destruct sa, sb; reflexivity).
  f_equal.
  rewrite (Z.compare_antisym ea eb).
  change (Pos.compare_cont Eq ma mb) with (Pos.compare_cont (CompOpp Eq) ma mb).
  rewrite <- (Pos.compare_cont_antisym mb ma Eq).
  destruct sa, sb; cbn; try reflexivity;
    destruct (ea ?= eb); cbn; try reflexivity;
    destruct (Pos.compare_cont Eq mb ma); reflexivity.
Qed.

Lemma fltb_flip (a b : float) : fltb a b = true -> fleb b a = false.
Proof.
  unfold fltb, fleb, SFltb, SFleb. rewrite (compare_antisym b a).
  destruct (SFcompare a b) as [[ | | ] | ]; cbn; congruence.
Qed.

Lemma fltb_not_eq (a b : float) : fltb a b = true -> feqb b a = false.
Proof.
  unfold fltb, feqb, SFltb, SFeqb. rewrite (compare_antisym b a).
  destruct (SFcompare a b) as [[ | | ] | ]; cbn; congruence.
Qed.

Lemma fltb_asym (a b : float) : fltb a b = true -> fltb b a = false.
Proof.
  unfold fltb, SFltb. rewrite (compare_antisym b a).
  destruct (SFcompare a b) as [[ | | ] | ]; cbn; congruence.
Qed.

Lemma feqb_not_lt (a b : float) : feqb a b = true -> fltb a b = false.
Proof.
  unfold fltb, feqb, SFltb, SFeqb.
  destruct (SFcompare a b) as [[ | | ] | ]; congruence.
Qed.

(** Only the float [1.0] compares equal to [1]. *)
Lemma feqb_one (a : float) : feqb a (Z2F 1) = true -> a = Z2F 1.
Proof.
  rewrite Z2F_1. unfold feqb, SFeqb.
  destruct a as [s | s | | s m e]; cbn [SFcompare]; try discriminate.
  - destruct s; discriminate.
  - destruct s; try discriminate.
    destruct (e ?= -52) eqn:He; try discriminate.
    destruct (Pos.compare_cont Eq m 4503599627370496) eqn:Hm; try discriminate.
    intros _. apply Z.compare_eq in He. apply Pos.compare_eq in Hm.
    subst. reflexivity.
Qed.

(** A float that compares equal to [0] is a zero. *)
Lemma feqb_zero (a : float) :
  feqb a (Z2F 0) = true -> exists s, a = S754_zero s.
Proof.
  rewrite Z2F_0. unfold feqb, SFeqb.
  destruct a as [s | s | | s m e]; cbn [SFcompare]; try discriminate.
  - intros _. now exists s.
  - destruct s; discriminate.
  - destruct s; discriminate.
Qed.

(** The order of [SFcompare] on two floats above [1]. *)
Lemma one_lt_two_le (a : float) :
  fleb (Z2F 2) a = true -> fltb (Z2F 1) a = true.
Proof.
  rewrite Z2F_1, Z2F_2. unfold fleb, fltb, SFleb, SFltb.
  destruct a as [s | s | | s m e]; cbn [SFcompare]; try discriminate.
  - destruct s; intros; congruence.
  - destruct s; try discriminate.
    destruct (-51 ?= e) eqn:He.
    + apply Z.compare_eq in He. subst e. reflexivity.
    + rewrite Z.compare_lt_iff in He.
      assert (H : (-52 ?= e) = Lt) by (rewrite Z.compare_lt_iff; lia).
      now rewrite H.
    + discriminate.
Qed.

Lemma positive_not_nan (a : float) : fltb (Z2F 0) a = true -> isnan a = false.
Proof. rewrite Z2F_0. destruct a; cbn [isnan]; unfold fltb, SFltb; cbn [SFcompare]; congruence. Qed.

Lemma above_one_positive (a : float) :
  fltb (Z2F 1) a = true -> fltb (Z2F 0) a = true.
Proof.
  rewrite Z2F_0, Z2F_1. unfold fltb, SFltb.
  destruct a as [s | s | | s m e]; cbn [SFcompare]; try discriminate.
  - destruct s; congruence.
  - destruct s; congruence.
Qed.

(** An integral float is its own rounding. *)
Lemma round_of_integer (a : float) :
  is_integer a = true -> exists r, round a = Ok r /\ feqb_int a r = true.
Proof.
  destruct a as [s | s | | s m e]; cbn [is_integer round feqb_int]; try discriminate.
  - intros _. exists 0. split; reflexivity.
  - destruct (0 <=? e) eqn:He.
    + intros _. eexists. split; [reflexivity | apply Z.eqb_refl].
    + rewrite Z.eqb_eq. apply Z.leb_gt in He. intros Hm.
      eexists. split; [reflexivity | ].
      assert (Hd : 0 < 2 ^ (- e)) by (apply Z.pow_pos_nonneg; lia).
      unfold div_half_even. rewrite Hm.
      replace (2 * 0 ?= 2 ^ (- e)) with Lt
        by (symmetry; rewrite Z.compare_lt_iff; lia).
      apply Z.eqb_eq.
      assert (Hnz : 2 ^ (- e) <> 0) by lia.
      pose proof (Z.div_mod (Zpos m) (2 ^ (- e)) Hnz) as Hdm.
      rewrite Hm in Hdm.
      destruct s; cbn [cond_Zopp]; lia.
Qed.

End FloatFacts.

(** * [CVSplit.from_str] *)

Module CVSplitFacts.
Import Py Enumerables FloatFacts.

(** No float is the value of a member. *)
Lemma call_of_float (f : float) : CVSplit_call (VFloat f) = Raise not_a_member.
Proof. reflexivity. Qed.

(** What [from_str] does once the string has parsed to a float above 1
    that is an integer. *)
Lemma from_str_above_one (s : string) (cv : float) :
  float_of_str s = Some cv ->
  fltb (Z2F 1) cv = true ->
  is_integer cv = true ->
  from_str s =
    ((if fltb (Z2F 10) cv then [large_k] else []), Raise not_a_member).
Proof.
  intros Hs H1 Hint. unfold from_str. rewrite Hs.
  rewrite (positive_not_nan cv (above_one_positive cv H1)).
  rewrite (fltb_flip _ _ (above_one_positive cv H1)).
  rewrite (fltb_not_eq _ _ H1).
  rewrite (fltb_asym _ _ H1), andb_false_r.
  rewrite H1, Hint. cbn [negb andb].
  destruct (round_of_integer cv Hint) as [r [Hr Heq]].
  rewrite Hr, Heq. cbn [negb].
  rewrite call_of_float. reflexivity.
Qed.

(** C1, on the code: for every string that parses to an integer [k >= 2],
    [from_str] raises the [ValueError] of the enumeration lookup
    [CVSplit(cv)], after the warning when [k > 10]; it returns no k-fold
    policy. *)
Theorem from_str_integer_raises (s : string) (cv : float) :
  float_of_str s = Some cv ->
  is_integer cv = true ->
  fleb (Z2F 2) cv = true ->
  from_str s =
    ((if fltb (Z2F 10) cv then [large_k] else []), Raise not_a_member).
Proof.
  intros Hs Hint H2.
  apply from_str_above_one; auto using one_lt_two_le.
Qed.

Lemma from_str_integer_raises_witness :
  from_str "5" = ([], Raise not_a_member) /\
  from_str "11" = ([large_k], Raise not_a_member).
Proof.
  split.
  - apply (from_str_integer_raises "5" (Z2F 5)); vm_compute; reflexivity.
  - apply (from_str_integer_raises "11" (Z2F 11)); vm_compute; reflexivity.
Defined.

(** C2 as stated asks for a result that keeps the parsed value as the
    holdout fraction.  [from_str] returns the bare member [Holdout]:
    nothing computed from its result tells [0.2] from [0.5]. *)
Lemma holdout_fraction_not_retained :
  ~ (exists fraction : CVSplit -> float,
       forall s cv r,
         float_of_str s = Some cv ->
         fltb (Z2F 0) cv = true -> fltb cv (Z2F 1) = true ->
         snd (from_str s) = Ok r -> fraction r = cv).
Proof.
  intros [fraction H].
  assert (H2 : fraction Holdout = F_of_decimal false 2 (-1))
    by (apply (H "0.2"); vm_compute; reflexivity).
  assert (H5 : fraction Holdout = F_of_decimal false 5 (-1))
    by (apply (H "0.5"); vm_compute; reflexivity).
  rewrite H2 in H5. vm_compute in H5. discriminate.
Qed.

(** C2, amended: [from_str] raises a [ValueError] that names the fault
    for a string that is no float, for NaN, for a value at most 0, for 1,
    and for a value above 1 that is no integer; for a value strictly
    between 0 and 1 it issues no warning and returns the member
    [Holdout], the same for every such value. *)
Theorem from_str_rejects_and_holdout (s : string) :
  (float_of_str s = None -> from_str s = ([], Raise not_a_float)) /\
  (forall cv, float_of_str s = Some cv ->
     (isnan cv = true -> from_str s = ([], Raise nan_size)) /\
     (fleb cv (Z2F 0) = true -> from_str s = ([], Raise not_positive)) /\
     (feqb cv (Z2F 1) = true -> from_str s = ([], Raise is_one)) /\
     (fltb (Z2F 1) cv = true -> is_integer cv = false ->
        from_str s = ([], Raise not_an_integer)) /\
     (fltb (Z2F 0) cv = true -> fltb cv (Z2F 1) = true ->
        from_str s = ([], Ok Holdout))).
Proof.
  split.
  - intros Hs. unfold from_str. now rewrite Hs.
  - intros cv Hs. unfold from_str. rewrite Hs. repeat split.
    + intros Hn. now rewrite Hn.
    + intros Hle. destruct (isnan cv) eqn:Hn.
      * destruct cv; discriminate.
      * now rewrite Hle.
    + intros Heq. apply feqb_one in Heq. subst cv. vm_compute. reflexivity.
    + intros H1 Hint.
      rewrite (positive_not_nan cv (above_one_positive cv H1)).
      rewrite (fltb_flip _ _ (above_one_positive cv H1)).
      rewrite (fltb_not_eq _ _ H1).
      rewrite (fltb_asym _ _ H1), andb_false_r.
      now rewrite H1, Hint.
    + intros H0 H1.
      rewrite (positive_not_nan cv H0), (fltb_flip _ _ H0).
      assert (Hne : feqb cv (Z2F 1) = false).
      { unfold feqb, SFeqb. unfold fltb, SFltb in H1.
        destruct (SFcompare cv (Z2F 1)) as [[ | | ] | ]; congruence. }
      now rewrite Hne, H0, H1.
Qed.

Lemma from_str_rejects_and_holdout_witness :
  from_str "abc" = ([], Raise not_a_float) /\
  from_str "nan" = ([], Raise nan_size) /\
  from_str "-3" = ([], Raise not_positive) /\
  from_str "1" = ([], Raise is_one) /\
  from_str "2.5" = ([], Raise not_an_integer) /\
  from_str "0.2" = ([], Ok Holdout).
Proof.
  split; [ | split; [ | split; [ | split; [ | split ] ] ] ].
  - apply (from_str_rejects_and_holdout "abc"). vm_compute. reflexivity.
  - apply (from_str_rejects_and_holdout "nan") with (cv := nan);
      vm_compute; reflexivity.
  - apply (from_str_rejects_and_holdout "-3") with (cv := Z2F (-3));
      vm_compute; reflexivity.
  - apply (from_str_rejects_and_holdout "1") with (cv := Z2F 1);
      vm_compute; reflexivity.
  - apply (from_str_rejects_and_holdout "2.5")
      with (cv := F_of_decimal false 25 (-1)); vm_compute; reflexivity.
  - apply (from_str_rejects_and_holdout "0.2")
      with (cv := F_of_decimal false 2 (-1)); vm_compute; reflexivity.
Defined.

End CVSplitFacts.

(** * Facts about binary64 arithmetic *)

Module ArithFacts.
Import Py.

(** The sign of a rounded result is the sign handed to the rounding. *)
Lemma abs_round_aux (s s' : bool) (m e : Z) (l : location) :
  SFabs (binary_round_aux prec emax s m e l)
  = SFabs (binary_round_aux prec emax s' m e l).
Proof.
  unfold binary_round_aux.
  destruct (shr_fexp prec emax m e l) as [mrs1 e1].
  destruct (shr_fexp prec emax _ e1 loc_Exact) as [mrs2 e2].
  destruct (shr_m mrs2); try reflexivity.
  destruct (e2 <=? emax - prec); reflexivity.
Qed.

Lemma abs_normalize_opp (z e : Z) :
  SFabs (binary_normalize prec emax z e false)
  = SFabs (binary_normalize prec emax (- z) e false).
Proof.
  destruct z as [ | p | p]; cbn [binary_normalize Z.opp]; try reflexivity;
    unfold binary_round;
    destruct (shl_align p e _) as [mz ez]; apply abs_round_aux.
Qed.

Lemma fadd_comm (a b : float) : fadd a b = fadd b a.
Proof.
  unfold fadd.
  destruct a as [sa | sa | | sa ma ea], b as [sb | sb | | sb mb eb];
    cbn [SFadd]; try reflexivity; try (destruct sa, sb; reflexivity).
  rewrite (Z.min_comm eb ea). f_equal. apply Z.add_comm.
Qed.

Lemma fabs_fsub_sym (a b : float) : fabs (fsub a b) = fabs (fsub b a).
Proof.
  unfold fabs, fsub.
  destruct a as [sa | sa | | sa ma ea], b as [sb | sb | | sb mb eb];
    cbn [SFsub SFabs]; try reflexivity; try (destruct sa, sb; reflexivity).
  rewrite (Z.min_comm eb ea), abs_normalize_opp. do 2 f_equal. lia.
Qed.

(** [1 - 0 = 1] and [1 - 1 = 0], for either zero. *)
Lemma one_minus_zero (s : bool) : fsub (Z2F 1) (S754_zero s) = Z2F 1.
Proof. rewrite FloatFacts.Z2F_1. reflexivity. Qed.

Lemma one_minus_one : fsub (Z2F 1) (Z2F 1) = S754_zero false.
Proof. vm_compute. reflexivity. Qed.

End ArithFacts.

(** * [cohens_d] *)

Module CohensDFacts.
Import Py Pandas FeatureSelection Spec FloatFacts ArithFacts.

(** ** Series built column by column *)

Section Columnwise.
Context {A : Type}.
Variable label : A -> string.

Definition per_column (g : A -> float) (l : list A) : Series :=
  map (fun c => (label c, g c)) l.

Lemma smap_per_column (f : float -> float) (g : A -> float) (l : list A) :
  smap f (per_column g l) = per_column (fun c => f (g c)) l.
Proof. unfold smap, per_column. rewrite map_map. reflexivity. Qed.

Lemma szip_per_column (f : float -> float -> float) (g h : A -> float)
    (l : list A) :
  szip f (per_column g l) (per_column h l)
  = per_column (fun c => f (g c) (h c)) l.
Proof.
  induction l as [ | c l IH]; cbn; [reflexivity | ].
  f_equal. exact IH.
Qed.

Lemma per_column_ext (g h : A -> float) (l : list A) :
  (forall c, g c = h c) -> per_column g l = per_column h l.
Proof.
  intros E. unfold per_column. apply map_ext. intros c. now rewrite E.
Qed.
End Columnwise.

Lemma reduce_loc_rows (f : list float -> float) (mask : list bool)
    (X : DataFrame) :
  reduce f (loc_rows mask X)
  = per_column fst (fun c => f (select mask (snd c))) (cols X).
Proof.
  unfold reduce, loc_rows, per_column. cbn [cols]. rewrite map_map.
  reflexivity.
Qed.

Section WithExternals.
Context {ext : Externals}.

(** What [cohens_d] computes for one column [col] under the target [y]. *)
Definition cohens_d_column (y col : list float) : float :=
  let n1 := group_size y 0 - 1 in
  let n2 := group_size y 1 - 1 in
  fdiv (fabs (fsub (np_mean (group y 0 col)) (np_mean (group y 1 col))))
       (fsqrt (fdiv (fadd (fmul (Z2F n1) (np_std 1 (group y 0 col)))
                          (fmul (Z2F n2) (np_std 1 (group y 1 col))))
                    (Z2F (n1 + n2)))).

Lemma cohens_d_columnwise (df X : DataFrame) (y : list float) :
  drop "target" df = Ok X ->
  getitem "target" df = Ok y ->
  cohens_d df = Ok (per_column fst (fun c => cohens_d_column y (snd c)) (cols X)).
Proof.
  intros HX Hy. unfold cohens_d. rewrite HX, Hy. cbn [bind].
  rewrite !reduce_loc_rows.
  rewrite !smap_per_column, !szip_per_column, !smap_per_column,
    !szip_per_column.
  reflexivity.
Qed.

Lemma column_is_spec (y col : list float) :
  cohens_d_column y col = cohens_d_spec y col.
Proof.
  unfold cohens_d_column, cohens_d_spec.
  rewrite (fabs_fsub_sym (np_mean (group y 0 col))).
  rewrite (fadd_comm (fmul (Z2F (group_size y 0 - 1)) _)).
  replace (group_size y 0 - 1 + (group_size y 1 - 1))
    with (group_size y 1 + group_size y 0 - 2) by lia.
  reflexivity.
Qed.

(** C6: on a frame with a target column, [cohens_d] gives each feature
    [|mean(group1) - mean(group0)| /
     sqrt(((n1-1)*sd1 + (n0-1)*sd0) / (n1+n0-2))], the value of
    [cohens_d_spec], bit for bit in binary64 (whatever the target
    holds, binary and with both groups non-empty or not). *)
Theorem cohens_d_is_the_formula (df X : DataFrame) (y : list float) :
  drop "target" df = Ok X ->
  getitem "target" df = Ok y ->
  cohens_d df = Ok (map (fun c => (fst c, cohens_d_spec y (snd c))) (cols X)).
Proof.
  intros HX Hy. rewrite (cohens_d_columnwise df X y HX Hy).
  f_equal. apply per_column_ext. intros c. apply column_is_spec.
Qed.

End WithExternals.

Lemma cohens_d_is_the_formula_witness :
  let X := mkFrame 4 (firstn 2 (cols Plain.toy)) in
  let y := map Z2F [0; 0; 1; 1] in
  cohens_d (ext := Plain.externals) Plain.toy
  = Ok (map (fun c => (fst c, cohens_d_spec (ext := Plain.externals) y (snd c)))
            (cols X)).
Proof.
  intros X y. apply (cohens_d_is_the_formula Plain.toy X y); reflexivity.
Defined.

(** ** Exchanging the two labels *)

Lemma drop_swap_labels (df : DataFrame) :
  drop "target" (swap_labels df) = drop "target" df.
Proof.
  unfold drop, has_column, columns, swap_labels. cbn [cols nrows].
  set (g := fun c : string * list float =>
              if String.eqb (fst c) "target"
              then (fst c, map (fsub (Z2F 1)) (snd c)) else c).
  assert (Hfst : forall c, fst (g c) = fst c)
    by (intros c; unfold g; destruct (String.eqb (fst c) "target"); reflexivity).
  assert (Hnames : map fst (map g (cols df)) = map fst (cols df))
    by (rewrite map_map; apply map_ext; exact Hfst).
  rewrite Hnames.
  assert (Hkeep : forall l,
            filter (fun c => negb (String.eqb (fst c) "target")) (map g l)
            = filter (fun c => negb (String.eqb (fst c) "target")) l).
  { induction l as [ | c l IH]; cbn [map filter]; [reflexivity | ].
    rewrite Hfst, IH.
    destruct (String.eqb (fst c) "target") eqn:E; cbn [negb]; [reflexivity | ].
    unfold g. now rewrite E. }
  now rewrite Hkeep.
Qed.

Lemma getitem_swap_labels (df : DataFrame) (y : list float) :
  getitem "target" df = Ok y ->
  getitem "target" (swap_labels df) = Ok (map (fsub (Z2F 1)) y).
Proof.
  unfold getitem, swap_labels. cbn [cols].
  induction (cols df) as [ | c l IH]; cbn [map find]; [discriminate | ].
  destruct (String.eqb (fst c) "target") eqn:E; cbn [fst]; rewrite E.
  - cbn [snd]. intros H. injection H as H. now rewrite H.
  - exact IH.
Qed.

Lemma swapped_value (v : float) :
  feqb v (Z2F 0) = true \/ feqb v (Z2F 1) = true ->
  feqb (fsub (Z2F 1) v) (Z2F 0) = feqb v (Z2F 1) /\
  feqb (fsub (Z2F 1) v) (Z2F 1) = feqb v (Z2F 0).
Proof.
  intros [H | H].
  - apply feqb_zero in H. destruct H as [s ->].
    rewrite one_minus_zero. destruct s; split; vm_compute; reflexivity.
  - apply feqb_one in H. subst v.
    rewrite one_minus_one. split; vm_compute; reflexivity.
Qed.

Lemma swapped_masks (y : list float) :
  binary y ->
  eq_mask (map (fsub (Z2F 1)) y) 0 = eq_mask y 1 /\
  eq_mask (map (fsub (Z2F 1)) y) 1 = eq_mask y 0.
Proof.
  unfold eq_mask. induction 1 as [ | v y Hv _ [IH0 IH1]]; cbn [map].
  - split; reflexivity.
  - destruct (swapped_value v Hv) as [E0 E1].
    rewrite IH0, IH1, E0, E1. split; reflexivity.
Qed.

Section Symmetry.
Context {ext : Externals}.

Lemma column_swapped (y col : list float) :
  binary y ->
  cohens_d_column (map (fsub (Z2F 1)) y) col = cohens_d_column y col.
Proof.
  intros Hb. destruct (swapped_masks y Hb) as [E0 E1].
  unfold cohens_d_column, group, group_size. rewrite E0, E1.
  rewrite (fabs_fsub_sym (np_mean (select (eq_mask y 1) col))).
  rewrite (fadd_comm (fmul (Z2F (Z.of_nat (count_true (eq_mask y 1)) - 1)) _)).
  rewrite (Z.add_comm (Z.of_nat (count_true (eq_mask y 1)) - 1)).
  reflexivity.
Qed.

(** C7: on a frame whose target holds zeros and ones, replacing the
    target [y] by [1 - y] leaves what [cohens_d] returns unchanged, for
    every feature and bit for bit. *)
Theorem cohens_d_label_symmetric (df X : DataFrame) (y : list float) :
  drop "target" df = Ok X ->
  getitem "target" df = Ok y ->
  binary y ->
  cohens_d (swap_labels df) = cohens_d df.
Proof.
  intros HX Hy Hb.
  rewrite (cohens_d_columnwise df X y HX Hy).
  rewrite (cohens_d_columnwise (swap_labels df) X (map (fsub (Z2F 1)) y)).
  - f_equal. apply per_column_ext. intros c. now apply column_swapped.
  - now rewrite drop_swap_labels.
  - now apply getitem_swap_labels.
Qed.

End Symmetry.

Lemma cohens_d_label_symmetric_witness :
  cohens_d (ext := Plain.externals) (swap_labels Plain.toy)
  = cohens_d (ext := Plain.externals) Plain.toy.
Proof.
  apply (cohens_d_label_symmetric Plain.toy
           (mkFrame 4 (firstn 2 (cols Plain.toy))) (map Z2F [0; 0; 1; 1]));
    try reflexivity.
  unfold binary.
  repeat (apply Forall_cons;
          [ first [ left; reflexivity | right; reflexivity ] | ]).
  apply Forall_nil.
Defined.

End CohensDFacts.

(** * [remove_weak_features] *)

Module WeakFeaturesFacts.
Import Py Pandas FeatureSelection.

Section WithExternals.
Context {ext : Externals}.

(** The featuretools calls of a trace, and what it wrote. *)
Definition calls (t : list event) : list (stage * DataFrame) :=
  flat_map (fun e => match e with Called s arg => [(s, arg)] | _ => [] end) t.

Definition writes (t : list event) : list json :=
  flat_map (fun e => match e with WroteCache c => [c] | _ => [] end) t.

(** C5: when the artifact exists, [remove_weak_features] returns the
    frame read from it, calls none of the three stages, writes nothing
    and leaves the artifact as it is, the same for every input frame
    and either value of [decorrelate]. *)
Theorem cached_result_short_circuits (df : DataFrame) (decorrelate : bool)
    (text : json) :
  let o := remove_weak_features df decorrelate (Some text) in
  ret o = RFrame (read_json text) /\
  calls (trace o) = [] /\
  writes (trace o) = [] /\
  cache_after o = Some text /\
  forall df' decorrelate',
    remove_weak_features df' decorrelate' (Some text) = o.
Proof. cbv zeta. repeat split. Qed.

(** C4, on the code: with no artifact and [decorrelate] set, the three
    stages run in order on each other's results and the last result is
    written to the artifact, but the call returns [None], not the
    filtered frame. *)
Theorem decorrelate_path_returns_none (df : DataFrame) :
  let df_v := remove_single_value_features df in
  let df_i := remove_low_information_features df_v in
  let df_c := remove_highly_correlated_features pct_corr_threshold df_i in
  let o := remove_weak_features df true None in
  calls (trace o)
    = [(SingleValue, df); (LowInformation, df_v); (HighlyCorrelated, df_i)] /\
  writes (trace o) = [to_json df_c] /\
  cache_after o = Some (to_json df_c) /\
  ret o = RNone.
Proof. cbv zeta. repeat split. Qed.

(** C10: with no artifact and [decorrelate] unset, the call returns the
    frame left by the single-value and the low-information stage, runs
    no third stage and writes nothing; and whenever a call writes the
    artifact, [decorrelate] was set and there was no artifact. *)
Theorem plain_path_writes_nothing (df : DataFrame) :
  let df_v := remove_single_value_features df in
  let df_i := remove_low_information_features df_v in
  let o := remove_weak_features df false None in
  (ret o = RFrame df_i /\
   calls (trace o) = [(SingleValue, df); (LowInformation, df_v)] /\
   writes (trace o) = [] /\
   cache_after o = None) /\
  (forall df' decorrelate cache,
     writes (trace (remove_weak_features df' decorrelate cache)) <> [] ->
     decorrelate = true /\ cache = None).
Proof.
  cbv zeta. split; [repeat split | ].
  intros df' [ | ] [text | ]; cbn; intros H; try (now elim H); now split.
Qed.

End WithExternals.

Lemma plain_path_writes_nothing_witness :
  ret (remove_weak_features (ext := Plain.externals) Plain.toy false None)
    = RFrame Plain.toy /\
  (true = true /\ @None (json (Externals := Plain.externals)) = None).
Proof.
  split.
  - apply (plain_path_writes_nothing (ext := Plain.externals) Plain.toy).
  - apply (proj2 (plain_path_writes_nothing (ext := Plain.externals) Plain.toy)
             Plain.toy true None).
    vm_compute. discriminate.
Defined.

End WeakFeaturesFacts.

(** * [select_features_by_univariate_rank] *)

Module UnivariateFacts.
Import Py Pandas FeatureSelection CohensDFacts.

(** ** Labels through the steps of the selection *)

Lemma for_each_labels {A B : Type} (label : A -> string)
    (f : A -> result B) (l : list A) (r : list (string * B)) :
  for_each (fun c => bind (f c) (fun a => Ok (label c, a))) l = Ok r ->
  map fst r = map label l.
Proof.
  revert r. induction l as [ | c l IH]; cbn [for_each]; intros r.
  - intros H. injection H as <-. reflexivity.
  - destruct (f c) as [a | e]; cbn [bind]; [ | discriminate].
    destruct (for_each _ l) as [r' | e]; cbn [bind]; [ | discriminate].
    intros H. injection H as <-. cbn [map fst]. f_equal. now apply IH.
Qed.

Lemma index_smap (f : float -> float) (s : Series) :
  index (smap f s) = index s.
Proof. unfold index, smap. rewrite map_map. reflexivity. Qed.

Lemma drop_has_no_target (df X : DataFrame) :
  drop "target" df = Ok X -> ~ In "target" (columns X).
Proof.
  unfold drop. destruct (has_column "target" df); [ | discriminate].
  intros H. injection H as <-. unfold columns. cbn [cols].
  rewrite in_map_iff. intros [c [Hc Hin]].
  apply filter_In in Hin. destruct Hin as [_ Hin].
  rewrite Hc, String.eqb_refl in Hin. discriminate.
Qed.

Lemma insert_desc_In (p q : string * float) (s : Series) :
  In q (insert_desc p s) -> q = p \/ In q s.
Proof.
  induction s as [ | r s IH]; cbn [insert_desc].
  - intros [H | []]. now left.
  - destruct (fltb (snd p) (snd r)).
    + intros [H | H]; [right; now left | ].
      destruct (IH H) as [E | E]; [now left | right; now right].
    + intros [H | H]; [now left | now right].
Qed.

Lemma sort_values_desc_In (q : string * float) (s : Series) :
  In q (sort_values_desc s) -> In q s.
Proof.
  unfold sort_values_desc. rewrite in_app_iff. intros [H | H].
  - revert H.
    assert (G : forall t, In q (fold_right insert_desc [] t) -> In q t).
    { induction t as [ | p t IH]; cbn [fold_right]; [easy | ].
      intros H. apply insert_desc_In in H.
      destruct H as [-> | H]; [now left | right; now apply IH]. }
    intros H. apply G in H. now apply filter_In in H.
  - now apply filter_In in H.
Qed.

Lemma slice_to_In {A : Type} (n : Z) (x : A) (l : list A) :
  In x (slice_to n l) -> In x l.
Proof.
  assert (G : forall k, In x (firstn k l) -> In x l).
  { intros k H. rewrite <- (firstn_skipn k l). apply in_or_app. now left. }
  unfold slice_to. destruct (0 <=? n); apply G.
Qed.

Lemma loc_cols_columns (labels : list string) (df out : DataFrame) :
  loc_cols labels df = Ok out -> columns out = labels.
Proof.
  unfold loc_cols.
  destruct (for_each _ labels) as [cs | e] eqn:E; cbn [bind]; [ | discriminate].
  intros H. injection H as <-. unfold columns. cbn [cols].
  rewrite (for_each_labels (fun l => l) (fun l => getitem l df) labels cs E).
  apply map_id.
Qed.

Section WithExternals.
Context {ext : Externals}.

(** Each of the three scores is indexed by the columns of the frame
    without its target. *)
Lemma cohens_d_index (df : DataFrame) (s : Series) :
  cohens_d df = Ok s -> exists X, drop "target" df = Ok X /\ index s = columns X.
Proof.
  intros H.
  destruct (drop "target" df) as [X | e] eqn:HX;
    [ | unfold cohens_d in H; rewrite HX in H; discriminate].
  destruct (getitem "target" df) as [y | e] eqn:Hy;
    [ | unfold cohens_d in H; rewrite HX, Hy in H; discriminate].
  rewrite (cohens_d_columnwise df X y HX Hy) in H. injection H as <-.
  exists X. split; [reflexivity | ].
  unfold index, per_column, columns. rewrite map_map. reflexivity.
Qed.

Lemma auroc_index (df : DataFrame) (s : Series) :
  auroc df = Ok s -> exists X, drop "target" df = Ok X /\ index s = columns X.
Proof.
  unfold auroc.
  destruct (drop "target" df) as [X | e]; cbn [bind]; [ | discriminate].
  destruct (getitem "target" df) as [y | e]; cbn [bind]; [ | discriminate].
  destruct (for_each _ (cols X)) as [aucs | e] eqn:E; cbn [bind];
    [ | discriminate].
  intros H. injection H as <-. exists X. split; [reflexivity | ].
  rewrite !index_smap.
  exact (for_each_labels fst (fun c => roc_auc_score y (snd c)) _ _ E).
Qed.

Lemma correlations_index (df : DataFrame) (method : string) (s : Series) :
  correlations df method = Ok s ->
  exists X, drop "target" df = Ok X /\ index s = columns X.
Proof.
  unfold correlations.
  destruct (drop "target" df) as [X | e]; cbn [bind]; [ | discriminate].
  destruct (getitem "target" df) as [y | e]; cbn [bind]; [ | discriminate].
  destruct (for_each _ (cols X)) as [r | e] eqn:E; cbn [bind];
    [ | discriminate].
  intros H. injection H as <-. exists X. split; [reflexivity | ].
  rewrite index_smap.
  exact (for_each_labels fst (fun c => corrwith method (snd c) y) _ _ E).
Qed.

Lemma sorted_has_no_target (df X : DataFrame) (s : Series) (n : Z) :
  drop "target" df = Ok X -> index s = columns X ->
  ~ In "target" (index (slice_to n (sort_values_desc s))).
Proof.
  intros HX Hs Hin. apply (drop_has_no_target df X HX). rewrite <- Hs.
  unfold index in *. rewrite in_map_iff in *.
  destruct Hin as [q [Hq Hin]]. exists q. split; [exact Hq | ].
  apply sort_values_desc_In. exact (slice_to_In n q _ Hin).
Qed.

(** C3, on the code: whatever the metric and the count, the frame
    [select_features_by_univariate_rank] returns has no ["target"]
    column: the target is not attached to the selected features. *)
Theorem selected_frame_has_no_target (df out : DataFrame)
    (metric : string) (n_features : Z) :
  select_features_by_univariate_rank df metric n_features = Ok out ->
  has_column "target" out = false.
Proof.
  unfold select_features_by_univariate_rank. intros H.
  assert (G : forall s X, drop "target" df = Ok X -> index s = columns X ->
               loc_cols (index (slice_to n_features (sort_values_desc s))) df
               = Ok out -> has_column "target" out = false).
  { intros s X HX Hs Hout. unfold has_column.
    rewrite (loc_cols_columns _ _ _ Hout).
    destruct (existsb _ _) eqn:E; [ | reflexivity].
    apply existsb_exists in E. destruct E as [l [Hin Hl]].
    apply String.eqb_eq in Hl. subst l.
    now elim (sorted_has_no_target df X s n_features HX Hs). }
  destruct (String.eqb (str_lower metric) "d").
  { destruct (cohens_d df) as [s | e] eqn:E; cbn [bind] in H; [ | discriminate].
    destruct (cohens_d_index df s E) as [X [HX Hs]]. now apply (G s X). }
  destruct (String.eqb (str_lower metric) "auc").
  { destruct (auroc df) as [s | e] eqn:E; cbn [bind] in H; [ | discriminate].
    destruct (auroc_index df s E) as [X [HX Hs]]. now apply (G s X). }
  destruct (String.eqb (str_lower metric) "pearson"
            || String.eqb (str_lower metric) "spearman")%bool.
  { destruct (correlations df metric) as [s | e] eqn:E; cbn [bind] in H;
      [ | discriminate].
    destruct (correlations_index df metric s E) as [X [HX Hs]].
    now apply (G s X). }
  discriminate.
Qed.

(** With a count of 0 the frame returned has no column at all. *)
Lemma select_none_is_empty :
  select_features_by_univariate_rank Plain.toy "d" 0 = Ok (mkFrame 4 []).
Proof. reflexivity. Qed.

End WithExternals.

Lemma selected_frame_has_no_target_witness :
  select_features_by_univariate_rank (ext := Plain.externals) Plain.toy "d" 1
    = Ok (mkFrame 4 [("size", map Z2F [1; 2; 4; 7])]) /\
  has_column "target" (mkFrame 4 [("size", map Z2F [1; 2; 4; 7])]) = false.
Proof.
  assert (E : select_features_by_univariate_rank (ext := Plain.externals)
                Plain.toy "d" 1
              = Ok (mkFrame 4 [("size", map Z2F [1; 2; 4; 7])]))
    by (vm_compute; reflexivity).
  split; [exact E | ].
  exact (selected_frame_has_no_target (ext := Plain.externals) _ _ _ _ E).
Defined.

End UnivariateFacts.

(** * [get_pca_features] and [get_kernel_pca_features] *)

Module ProjectionFacts.
Import Py Pandas FeatureSelection Spec.

Lemma snd_combine {A B : Type} (l : list A) (l' : list B) :
  List.length l = List.length l' -> map snd (combine l l') = l'.
Proof.
  revert l'. induction l as [ | a l IH]; intros [ | b l']; cbn;
    try discriminate; try reflexivity.
  intros H. f_equal. apply IH. now injection H.
Qed.






End ProjectionFacts.

(** * Rounding a small value stays below one half *)

Module RoundingFacts.
Import Py.

Lemma digits2_pos_bounds (p : positive) :
  2 ^ (Zpos (digits2_pos p) - 1) <= Zpos p < 2 ^ Zpos (digits2_pos p).
Proof.
  induction p as [p IH | p IH | ]; cbn [digits2_pos].
  - rewrite Pos2Z.inj_succ.
    replace (Z.succ (Zpos (digits2_pos p)) - 1)
      with (Z.succ (Zpos (digits2_pos p) - 1)) by lia.
    rewrite !Z.pow_succ_r by lia. lia.
  - rewrite Pos2Z.inj_succ.
    replace (Z.succ (Zpos (digits2_pos p)) - 1)
      with (Z.succ (Zpos (digits2_pos p) - 1)) by lia.
    rewrite !Z.pow_succ_r by lia. lia.
  - cbn. lia.
Qed.

Lemma Zdigits2_le (m k : Z) :
  0 <= k -> 0 <= m < 2 ^ k -> Zdigits2 m <= k.
Proof.
  intros Hk [H0 Hm]. destruct m as [ | p | p]; cbn [Zdigits2]; try lia.
  destruct (digits2_pos_bounds p) as [Hlo _].
  destruct (Z_le_gt_dec (Zpos (digits2_pos p)) k) as [ | Hgt]; [assumption | ].
  assert (2 ^ k <= 2 ^ (Zpos (digits2_pos p) - 1))
    by (apply Z.pow_le_mono_r; lia).
  lia.
Qed.

Lemma iter_xO (p k : positive) :
  Zpos (Pos.iter xO p k) = Zpos p * 2 ^ Zpos k /\
  digits2_pos (Pos.iter xO p k) = (digits2_pos p + k)%positive.
Proof.
  induction k as [ | k [IHv IHd]] using Pos.peano_ind.
  - cbn [Pos.iter]. split; [rewrite (Pos2Z.inj_xO p); lia | ].
    cbn [digits2_pos]. lia.
  - rewrite Pos.iter_succ, (Pos2Z.inj_xO (Pos.iter xO p k)), IHv, Pos2Z.inj_succ.
    rewrite Z.pow_succ_r by lia.
    split; [lia | ]. cbn [digits2_pos]. rewrite IHd. lia.
Qed.

(** ** Shifting right *)

Lemma shr_1_m (mrs : shr_record) :
  0 <= shr_m mrs -> shr_m (shr_1 mrs) = shr_m mrs / 2.
Proof.
  destruct mrs as [m r s]. cbn [shr_m]. intros H.
  rewrite <- Z.div2_div.
  destruct m as [ | [p | p | ] | p]; try reflexivity; lia.
Qed.

Lemma iter_shr_1_m (n : positive) (mrs : shr_record) :
  0 <= shr_m mrs ->
  shr_m (iter_pos shr_1 n mrs) = shr_m mrs / 2 ^ Zpos n.
Proof.
  revert mrs. induction n as [n IH | n IH | ]; intros mrs H; cbn [iter_pos].
  - assert (H1 : 0 <= shr_m (shr_1 mrs))
      by (rewrite shr_1_m by lia; apply Z.div_pos; lia).
    assert (H2 : 0 <= shr_m (iter_pos shr_1 n (shr_1 mrs)))
      by (rewrite IH by lia; apply Z.div_pos; [lia | apply Z.pow_pos_nonneg; lia]).
    rewrite IH, IH, shr_1_m by lia.
    rewrite !Z.div_div by (try apply Z.pow_pos_nonneg; lia).
    f_equal. rewrite (Pos2Z.inj_xI n).
    replace (2 * Zpos n + 1) with (1 + Zpos n + Zpos n) by lia.
    rewrite !Z.pow_add_r by lia. lia.
  - assert (H2 : 0 <= shr_m (iter_pos shr_1 n mrs))
      by (rewrite IH by lia; apply Z.div_pos; [lia | apply Z.pow_pos_nonneg; lia]).
    rewrite IH, IH by lia.
    rewrite !Z.div_div by (try apply Z.pow_pos_nonneg; lia).
    f_equal. rewrite (Pos2Z.inj_xO n).
    replace (2 * Zpos n) with (Zpos n + Zpos n) by lia.
    rewrite !Z.pow_add_r by lia. lia.
  - rewrite shr_1_m by lia. reflexivity.
Qed.

Lemma shr_record_of_loc_m (m : Z) (l : location) :
  shr_m (shr_record_of_loc m l) = m.
Proof. destruct l as [ | [ | | ]]; reflexivity. Qed.

(** [shr_fexp] divides the mantissa by a power of two and raises the
    exponent by as much. *)
Lemma shr_fexp_spec (m e : Z) (l : location) :
  0 <= m ->
  let n := Z.max 0 (fexp prec emax (Zdigits2 m + e) - e) in
  shr_m (fst (shr_fexp prec emax m e l)) = m / 2 ^ n /\
  snd (shr_fexp prec emax m e l) = e + n.
Proof.
  intros H n. unfold shr_fexp, shr. subst n.
  destruct (fexp prec emax (Zdigits2 m + e) - e) as [ | k | k]; cbn [fst snd].
  - rewrite shr_record_of_loc_m. cbn. rewrite Z.div_1_r. split; lia.
  - rewrite iter_shr_1_m by (rewrite shr_record_of_loc_m; lia).
    rewrite shr_record_of_loc_m.
    replace (Z.max 0 (Zpos k)) with (Zpos k) by lia. split; reflexivity.
  - rewrite shr_record_of_loc_m.
    replace (Z.max 0 (Zneg k)) with 0 by lia.
    cbn. rewrite Z.div_1_r. split; lia.
Qed.

Lemma round_nearest_even_bounds (m : Z) (l : location) :
  m <= round_nearest_even m l <= m + 1.
Proof.
  destruct l as [ | [ | | ]]; cbn [round_nearest_even];
    try destruct (Z.even m); lia.
Qed.

(** ** Results at most one half *)

Lemma half_eq :
  FeatureSelection.half = S754_finite false 4503599627370496 (-53).
Proof. vm_compute. reflexivity. Qed.

Definition le_half (x : float) : Prop :=
  fleb (fabs x) FeatureSelection.half = true.

Lemma zero_le_half (s : bool) : le_half (S754_zero s).
Proof. unfold le_half. rewrite half_eq. reflexivity. Qed.

Lemma finite_le_half (s : bool) (m : positive) (e : Z) :
  e < -53 \/ (e = -53 /\ m = 4503599627370496%positive) ->
  le_half (S754_finite s m e).
Proof.
  unfold le_half. rewrite half_eq. unfold fleb, SFleb, fabs.
  cbn [SFabs SFcompare]. intros [H | [-> ->]].
  - replace (e ?= -53) with Lt by (symmetry; apply Z.compare_lt_iff; lia).
    reflexivity.
  - vm_compute. reflexivity.
Qed.

Lemma fexp_eq (x : Z) : fexp prec emax x = Z.max (x - 53) (-1074).
Proof. reflexivity. Qed.

(** A value below one half, given with the precision of its format,
    rounds to at most one half. *)
Lemma round_aux_small (s : bool) (p : positive) (e : Z) (l : location) :
  e <= fexp prec emax (Zpos (digits2_pos p) + e) ->
  Zpos p < 2 ^ (-1 - e) ->
  le_half (binary_round_aux prec emax s (Zpos p) e l).
Proof.
  intros Hprec Hsmall. rewrite fexp_eq in Hprec.
  destruct (digits2_pos_bounds p) as [Hlo Hhi].
  set (d := Zpos (digits2_pos p)) in *.
  assert (Hd : 0 < d) by (unfold d; lia).
  assert (He : e <= -2).
  { destruct (Z_le_gt_dec e (-2)) as [ | Hgt]; [assumption | exfalso].
    assert (-1 - e <= 0) by lia.
    assert (2 ^ (-1 - e) <= 2 ^ 0) by (apply Z.pow_le_mono_r; lia).
    change (2 ^ 0) with 1 in *. lia. }
  assert (Hde : d + e <= -1).
  { assert (2 ^ (d - 1) < 2 ^ (-1 - e)) by lia.
    apply Z.pow_lt_mono_r_iff in H; lia. }
  set (f := Z.max (d + e - 53) (-1074)) in *.
  assert (Hf : -1074 <= f <= -54 /\ d + e - 53 <= f) by (unfold f; lia).
  assert (Hpow : 0 < 2 ^ (f - e)) by (apply Z.pow_pos_nonneg; lia).
  unfold binary_round_aux.
  pose proof (shr_fexp_spec (Zpos p) e l ltac:(lia)) as H1.
  cbv zeta in H1. cbn [Zdigits2] in H1. fold d in H1.
  rewrite fexp_eq in H1. fold f in H1.
  replace (Z.max 0 (f - e)) with (f - e) in H1 by lia.
  destruct (shr_fexp prec emax (Zpos p) e l) as [mrs1 e1].
  cbn [fst snd] in H1. destruct H1 as [Hm1 He1].
  replace (e + (f - e)) with f in He1 by lia. subst e1.
  set (m1 := shr_m mrs1) in *.
  assert (Hm1pos : 0 <= m1)
    by (rewrite Hm1; apply Z.div_pos; lia).
  assert (Hm1a : m1 < 2 ^ 53).
  { rewrite Hm1. apply Z.div_lt_upper_bound; [lia | ].
    rewrite <- Z.pow_add_r by lia.
    assert (2 ^ d <= 2 ^ (f - e + 53)) by (apply Z.pow_le_mono_r; lia).
    lia. }
  assert (Hm1b : m1 < 2 ^ (-1 - f)).
  { rewrite Hm1. apply Z.div_lt_upper_bound; [lia | ].
    rewrite <- Z.pow_add_r by lia.
    replace (f - e + (-1 - f)) with (-1 - e) by lia. lia. }
  pose proof (round_nearest_even_bounds m1 (loc_of_shr_record mrs1)) as Hm2.
  set (m2 := round_nearest_even m1 (loc_of_shr_record mrs1)) in *.
  change (2 ^ 53) with 9007199254740992 in Hm1a.
  pose proof (shr_fexp_spec m2 f loc_Exact ltac:(lia)) as H2.
  cbv zeta in H2. rewrite fexp_eq in H2.
  destruct (shr_fexp prec emax m2 f loc_Exact) as [mrs2 e2].
  cbn [fst snd] in H2. destruct H2 as [Hr He2].
  destruct (Z_lt_le_dec m2 9007199254740992) as [Hlt | Hge].
  - assert (Hdig : Zdigits2 m2 <= 53)
      by (apply Zdigits2_le; [lia | change (2 ^ 53) with 9007199254740992; lia]).
    replace (Z.max 0 (Z.max (Zdigits2 m2 + f - 53) (-1074) - f)) with 0
      in Hr, He2 by lia.
    change (2 ^ 0) with 1 in Hr. rewrite Z.div_1_r in Hr.
    rewrite Z.add_0_r in He2. subst e2. rewrite Hr.
    destruct m2 as [ | q | q]; [apply zero_le_half | | lia].
    replace (f <=? emax - prec) with true
      by (symmetry; apply Z.leb_le; unfold emax, prec; lia).
    apply finite_le_half. left. lia.
  - assert (Em2 : m2 = 9007199254740992) by lia.
    rewrite Em2 in Hr, He2.
    change (Zdigits2 9007199254740992) with 54 in Hr, He2.
    replace (Z.max 0 (Z.max (54 + f - 53) (-1074) - f)) with 1
      in Hr, He2 by lia.
    change (9007199254740992 / 2 ^ 1) with 4503599627370496 in Hr.
    rewrite Hr, He2.
    replace (f + 1 <=? emax - prec) with true
      by (symmetry; apply Z.leb_le; unfold emax, prec; lia).
    apply finite_le_half. lia.
Qed.

Lemma round_small (s : bool) (p : positive) (e : Z) :
  Zpos p < 2 ^ (-1 - e) ->
  le_half (binary_round prec emax s p e).
Proof.
  intros Hsmall. unfold binary_round, shl_align.
  set (f := fexp prec emax (Zpos (digits2_pos p) + e)).
  destruct (f - e) as [ | k | k] eqn:Hk.
  - apply round_aux_small; [fold f; lia | exact Hsmall].
  - apply round_aux_small; [fold f; lia | exact Hsmall].
  - destruct (iter_xO p k) as [Hv Hd].
    apply round_aux_small.
    + rewrite Hd, Pos2Z.inj_add.
      replace (Zpos (digits2_pos p) + Zpos k + f)
        with (Zpos (digits2_pos p) + e) by lia.
      fold f. lia.
    + rewrite Hv.
      assert (E : -1 - f = -1 - e + Zpos k) by lia.
      assert (0 <= -1 - e).
      { destruct (Z_le_gt_dec 0 (-1 - e)) as [ | Hgt]; [assumption | exfalso].
        rewrite Z.pow_neg_r in Hsmall by lia. lia. }
      rewrite E, Z.pow_add_r by lia.
      apply Z.mul_lt_mono_pos_r; [apply Z.pow_pos_nonneg; lia | exact Hsmall].
Qed.

Lemma normalize_small (z e : Z) :
  Z.abs z < 2 ^ (-1 - e) ->
  le_half (binary_normalize prec emax z e false).
Proof.
  destruct z as [ | p | p]; cbn [binary_normalize Z.abs]; intros H.
  - apply zero_le_half.
  - now apply round_small.
  - now apply round_small.
Qed.

End RoundingFacts.

(** * [auroc] *)

Module AurocFacts.
Import Py Pandas FeatureSelection FloatFacts RoundingFacts.

Lemma shl_align_fst (m : positive) (e ez : Z) :
  ez <= e -> Zpos (fst (shl_align m e ez)) = Zpos m * 2 ^ (e - ez).
Proof.
  intros H. unfold shl_align. destruct (ez - e) as [ | k | k] eqn:Hk;
    cbn [fst]; try lia.
  - replace (e - ez) with 0 by lia. cbn. lia.
  - destruct (iter_xO m k) as [Hv _]. rewrite Hv. f_equal. f_equal. lia.
Qed.

(** A valid binary64 mantissa has at most 53 bits. *)
Lemma valid_mantissa (s : bool) (m : positive) (e : Z) :
  valid_binary prec emax (S754_finite s m e) = true ->
  Zpos m < 2 ^ 53 /\ (-1074 < e -> 2 ^ 52 <= Zpos m).
Proof.
  cbn [valid_binary]. unfold bounded, canonical_mantissa.
  rewrite andb_true_iff, Z.eqb_eq, fexp_eq. intros [Hc _].
  destruct (digits2_pos_bounds m) as [Hlo Hhi].
  set (d := Zpos (digits2_pos m)) in *.
  split.
  - assert (2 ^ d <= 2 ^ 53) by (apply Z.pow_le_mono_r; lia). lia.
  - intros He. assert (d = 53) by lia.
    replace (d - 1) with 52 in Hlo by lia. exact Hlo.
Qed.

(** For a valid [a] with [0 <= a <= 1], [|a - 0.5| <= 0.5] after
    rounding. *)
Lemma rescaled_le_half (a : float) :
  valid_binary prec emax a = true ->
  fleb (Z2F 0) a = true -> fleb a (Z2F 1) = true ->
  le_half (fsub a half).
Proof.
  intros Hv H0 H1. rewrite Z2F_0 in H0. rewrite Z2F_1 in H1.
  unfold fleb, SFleb in H0, H1.
  destruct a as [s | s | | s m e].
  - unfold fsub. rewrite half_eq. cbn [SFsub negb].
    apply finite_le_half. right. split; reflexivity.
  - destruct s; cbn [SFcompare] in H0, H1; discriminate.
  - discriminate.
  - destruct s; cbn [SFcompare] in H0, H1; [discriminate | ].
    destruct (valid_mantissa false m e Hv) as [Hm53 Hnorm].
    change (2 ^ 53) with 9007199254740992 in Hm53.
    change (2 ^ 52) with 4503599627370496 in Hnorm.
    unfold fsub. rewrite half_eq. cbn [SFsub cond_Zopp].
    destruct (Z.compare_spec e (-52)) as [He | He | He]; [ | | discriminate].
    + (* e = -52: a is 1 *)
      rewrite Pos.compare_cont_spec in H1.
      assert (Hle : (m <= 4503599627370496)%positive).
      { unfold Pos.le. destruct (m ?= 4503599627370496)%positive;
          cbn [Pos.switch_Eq] in H1; congruence. }
      apply Pos2Z.pos_le_pos in Hle.
      assert (Hge : 4503599627370496 <= Zpos m) by (apply Hnorm; lia).
      clear H0 H1 Hv Hnorm Hm53.
      assert (Em : Zpos m = 4503599627370496) by lia.
      injection Em as ->. subst e.
      apply finite_le_half. right. split; vm_compute; reflexivity.
    + apply normalize_small.
      rewrite !shl_align_fst by lia.
      destruct (Z.eq_dec e (-53)) as [-> | Hne].
      * change (Z.min (-53) (-53)) with (-53).
        change (2 ^ (-53 - -53)) with 1.
        change (2 ^ (-1 - -53)) with 4503599627370496. lia.
      * replace (Z.min e (-53)) with e by lia.
        replace (e - e) with 0 by lia. change (2 ^ 0) with 1.
        change (Zpos 4503599627370496) with (2 ^ 52).
        rewrite <- Z.pow_add_r by lia.
        replace (52 + (-53 - e)) with (-1 - e) by lia.
        assert (2 ^ 53 <= 2 ^ (-1 - e)) by (apply Z.pow_le_mono_r; lia).
        change (2 ^ 53) with 9007199254740992 in *. lia.
Qed.

Lemma abs_nonneg (x : float) :
  le_half x -> fleb (Z2F 0) (fabs x) = true.
Proof.
  unfold le_half. rewrite half_eq, Z2F_0. unfold fleb, SFleb, fabs.
  destruct x as [s | s | | s m e]; cbn [SFabs SFcompare];
    try reflexivity; discriminate.
Qed.

(** What [auroc] makes of one area. *)
Definition rescale (a : float) : float := fabs (fsub a half).

(** An area as scikit-learn returns it: a binary64 number in [0, 1]. *)
Definition is_area (a : float) : Prop :=
  valid_binary prec emax a = true /\
  fleb (Z2F 0) a = true /\ fleb a (Z2F 1) = true.

Lemma rescale_range (a : float) :
  is_area a ->
  fleb (Z2F 0) (rescale a) = true /\ fleb (rescale a) half = true.
Proof.
  intros [Hv [H0 H1]]. pose proof (rescaled_le_half a Hv H0 H1) as H.
  split; [now apply abs_nonneg | ].
  unfold le_half in H. unfold rescale.
  now destruct (fsub a half).
Qed.

Section WithExternals.
Context {ext : Externals}.

(** C8: when [roc_auc_score] gives the area [a] of each feature as a
    predictor of the target, [auroc] returns, feature by feature,
    [|a - 0.5|] in binary64; and as each area is a number in [0, 1],
    each score lies in [0, 0.5]. *)
Theorem auroc_is_rescaled_area (df X : DataFrame) (y : list float)
    (aucs : Series) :
  drop "target" df = Ok X ->
  getitem "target" df = Ok y ->
  for_each (fun c => bind (roc_auc_score y (snd c)) (fun a => Ok (fst c, a)))
           (cols X) = Ok aucs ->
  Forall (fun p => is_area (snd p)) aucs ->
  auroc df = Ok (map (fun p => (fst p, rescale (snd p))) aucs) /\
  index aucs = columns X /\
  Forall (fun p => fleb (Z2F 0) (rescale (snd p)) = true /\
                   fleb (rescale (snd p)) half = true) aucs.
Proof.
  intros HX Hy Hauc Harea. split; [ | split].
  - unfold auroc. rewrite HX, Hy. cbn [bind]. rewrite Hauc. cbn [bind].
    unfold smap. rewrite map_map. reflexivity.
  - exact (UnivariateFacts.for_each_labels fst
             (fun c => roc_auc_score y (snd c)) _ _ Hauc).
  - revert Harea. apply Forall_impl. intros p. apply rescale_range.
Qed.

End WithExternals.

(** The areas of the two features of [Plain.toy]. *)
Definition toy_areas : Series :=
  [("size", Z2F 1); ("shade", F_of_decimal false 5 (-1))].

Lemma auroc_is_rescaled_area_witness :
  let X := mkFrame 4 (firstn 2 (cols Plain.toy)) in
  auroc (ext := Plain.externals) Plain.toy
  = Ok (map (fun p => (fst p, rescale (snd p))) toy_areas) /\
  index toy_areas = columns X /\
  Forall (fun p => fleb (Z2F 0) (rescale (snd p)) = true /\
                   fleb (rescale (snd p)) half = true) toy_areas.
Proof.
  intros X.
  apply (auroc_is_rescaled_area (ext := Plain.externals) Plain.toy X
           (map Z2F [0; 0; 1; 1]) toy_areas).
  - vm_compute. reflexivity.
  - vm_compute. reflexivity.
  - vm_compute. reflexivity.
  - unfold toy_areas, is_area.
    repeat (apply Forall_cons;
            [ split; [ | split ]; vm_compute; reflexivity | ]).
    apply Forall_nil.
Defined.

End AurocFacts.

(** * More on [CVSplit.from_str] and [CVSplit.to_string] *)

Module CVSplitMore.
Import Py Enumerables CVSplitText FloatFacts CVSplitFacts.

(** ** Strings beyond ASCII

    [float] reads white space and decimal digits of any script; the strings
    are given by their UTF-8 bytes. *)

Definition of_bytes (l : list N) : string :=
  string_of_list_ascii (map ascii_of_N l).

(** U+00A0 (no-break space), then [0.5]. *)
Definition nbsp_half : string := of_bytes [0xC2; 0xA0; 48; 46; 53]%N.

(** [0.5] between two U+0085 (next line). *)
Definition nel_half : string :=
  of_bytes [0xC2; 0x85; 48; 46; 53; 0xC2; 0x85]%N.

(** U+0661 U+0661: eleven in Arabic-Indic digits. *)
Definition arabic_eleven : string := of_bytes [0xD9; 0xA1; 0xD9; 0xA1]%N.

(** U+00BD, the fraction one half: a number, but no decimal digit. *)
Definition vulgar_half : string := of_bytes [0xC2; 0xBD]%N.

Example float_of_nbsp_half :
  float_of_str nbsp_half = float_of_str "0.5" /\
  float_of_str nel_half = float_of_str "0.5" /\
  float_of_str "0.5" = Some (F_of_decimal false 5 (-1)).
Proof. vm_compute. repeat split. Qed.

Example float_of_arabic_eleven :
  float_of_str arabic_eleven = Some (Z2F 11).
Proof. vm_compute. reflexivity. Qed.

Example float_of_vulgar_half : float_of_str vulgar_half = None.
Proof. vm_compute. reflexivity. Qed.

Example from_str_nbsp_half : from_str nbsp_half = ([], Ok Holdout).
Proof. vm_compute. reflexivity. Qed.

Example from_str_arabic_eleven :
  from_str arabic_eleven = ([large_k], Raise not_a_member).
Proof. vm_compute. reflexivity. Qed.

Lemma compare_defined (a b : float) :
  isnan a = false -> isnan b = false -> exists c, SFcompare a b = Some c.
Proof.
  destruct a, b; cbn [isnan SFcompare]; intros; try discriminate; eauto.
Qed.

(** Two numbers that are neither below nor equal are above. *)
Lemma trichotomy (a b : float) :
  isnan a = false -> isnan b = false ->
  fltb a b = false -> feqb a b = false -> fltb b a = true.
Proof.
  intros Ha Hb. destruct (compare_defined a b Ha Hb) as [c Hc].
  unfold fltb, feqb, SFltb, SFeqb. rewrite (compare_antisym b a), Hc.
  destruct c; cbn; congruence.
Qed.

Lemma not_le_lt (a b : float) :
  isnan a = false -> isnan b = false -> fleb a b = false -> fltb b a = true.
Proof.
  intros Ha Hb. destruct (compare_defined a b Ha Hb) as [c Hc].
  unfold fltb, fleb, SFltb, SFleb. rewrite (compare_antisym b a), Hc.
  destruct c; cbn; congruence.
Qed.

Lemma one_not_nan : isnan (Z2F 1) = false.
Proof. rewrite Z2F_1. reflexivity. Qed.

Lemma zero_not_nan : isnan (Z2F 0) = false.
Proof. reflexivity. Qed.

(** What has passed the first four checks of [from_str] is above 1. *)
Lemma past_checks (cv : float) :
  isnan cv = false -> fleb cv (Z2F 0) = false -> feqb cv (Z2F 1) = false ->
  (fltb (Z2F 0) cv && fltb cv (Z2F 1))%bool = false ->
  fltb (Z2F 1) cv = true.
Proof.
  intros Hn H0 H1 H01.
  rewrite (not_le_lt cv (Z2F 0) Hn zero_not_nan H0) in H01. cbn [andb] in H01.
  exact (trichotomy cv (Z2F 1) Hn one_not_nan H01 H1).
Qed.

Lemma ten_lt_one_lt (a : float) :
  fltb (Z2F 10) a = true -> fltb (Z2F 1) a = true.
Proof.
  rewrite Z2F_1, Z2F_10. unfold fltb, SFltb.
  destruct a as [s | s | | s m e]; cbn [SFcompare]; try discriminate.
  - destruct s; intros; congruence.
  - destruct s; try discriminate.
    destruct (Z.compare_spec (-49) e) as [He | He | He]; try discriminate;
      intros _;
      (replace (-52 ?= e) with Lt
         by (symmetry; apply Z.compare_lt_iff; lia)); reflexivity.
Qed.

(** [from_str] without the two checks that nothing reaches: the test
    [cv != round(cv)] and the last [return CVSplit(s)]. *)
Definition from_str_live (s : string) : list warning * result CVSplit :=
  match float_of_str s with
  | None => ([], Raise not_a_float)
  | Some cv =>
      if isnan cv then ([], Raise nan_size)
      else if fleb cv (Z2F 0) then ([], Raise not_positive)
      else if feqb cv (Z2F 1) then ([], Raise is_one)
      else if (fltb (Z2F 0) cv && fltb cv (Z2F 1))%bool then ([], Ok Holdout)
      else if negb (is_integer cv) then ([], Raise not_an_integer)
      else ((if fltb (Z2F 10) cv then [large_k] else []), Raise not_a_member)
  end.

Lemma from_str_is_live (s : string) : from_str s = from_str_live s.
Proof.
  unfold from_str, from_str_live.
  destruct (float_of_str s) as [cv | ]; [ | reflexivity].
  destruct (isnan cv) eqn:Hn; [reflexivity | ].
  destruct (fleb cv (Z2F 0)) eqn:H0; [reflexivity | ].
  destruct (feqb cv (Z2F 1)) eqn:H1; [reflexivity | ].
  destruct (fltb (Z2F 0) cv && fltb cv (Z2F 1))%bool eqn:H01; [reflexivity | ].
  rewrite (past_checks cv Hn H0 H1 H01). cbn [andb].
  destruct (is_integer cv) eqn:Hi; cbn [negb]; [ | reflexivity].
  destruct (round_of_integer cv Hi) as [r [Hr Heq]].
  rewrite Hr, Heq. reflexivity.
Qed.

(** X1: [from_str] returns a member exactly when the string parses to a
    float strictly between 0 and 1; the member is then [Holdout] and no
    warning is issued.  No string gives a k-fold member. *)
Theorem from_str_returns_only_holdout (s : string) (w : list warning)
    (r : CVSplit) :
  from_str s = (w, Ok r) <->
  w = [] /\ r = Holdout /\
  exists cv, float_of_str s = Some cv /\
             fltb (Z2F 0) cv = true /\ fltb cv (Z2F 1) = true.
Proof.
  split.
  - rewrite from_str_is_live. unfold from_str_live.
    destruct (float_of_str s) as [cv | ]; [ | discriminate].
    destruct (isnan cv); [discriminate | ].
    destruct (fleb cv (Z2F 0)); [discriminate | ].
    destruct (feqb cv (Z2F 1)); [discriminate | ].
    destruct (fltb (Z2F 0) cv) eqn:H0, (fltb cv (Z2F 1)) eqn:H1; cbn [andb];
      try (destruct (negb (is_integer cv)); discriminate).
    intros H. injection H as <- <-. repeat split. now exists cv.
  - intros [-> [-> [cv [Hs [H0 H1]]]]].
    rewrite from_str_is_live. unfold from_str_live. rewrite Hs.
    rewrite (positive_not_nan cv H0), (fltb_flip _ _ H0).
    assert (Hne : feqb cv (Z2F 1) = false).
    { unfold feqb, SFeqb. unfold fltb, SFltb in H1.
      destruct (SFcompare cv (Z2F 1)) as [[ | | ] | ]; congruence. }
    now rewrite Hne, H0, H1.
Qed.


(** X3: the warning about a large [k] is issued exactly for a string that
    parses to an integral float above 10, and the call that issues it
    raises the [ValueError] of the member lookup. *)
Theorem from_str_warns_iff (s : string) :
  (fst (from_str s) = [large_k] <->
   exists cv, float_of_str s = Some cv /\
              is_integer cv = true /\ fltb (Z2F 10) cv = true) /\
  (fst (from_str s) <> [] -> from_str s = ([large_k], Raise not_a_member)).
Proof.
  split; [split | ].
  - rewrite from_str_is_live. unfold from_str_live.
    destruct (float_of_str s) as [cv | ]; [ | discriminate].
    destruct (isnan cv); [discriminate | ].
    destruct (fleb cv (Z2F 0)); [discriminate | ].
    destruct (feqb cv (Z2F 1)); [discriminate | ].
    destruct (fltb (Z2F 0) cv && fltb cv (Z2F 1))%bool; [discriminate | ].
    destruct (is_integer cv) eqn:Hi; cbn [negb]; [ | discriminate].
    destruct (fltb (Z2F 10) cv) eqn:H10; [ | discriminate].
    intros _. now exists cv.
  - intros [cv [Hs [Hi H10]]].
    rewrite (from_str_above_one s cv Hs (ten_lt_one_lt cv H10) Hi), H10.
    reflexivity.
  - rewrite from_str_is_live. unfold from_str_live.
    destruct (float_of_str s) as [cv | ]; [ | now intros H; elim H].
    destruct (isnan cv); [now intros H; elim H | ].
    destruct (fleb cv (Z2F 0)); [now intros H; elim H | ].
    destruct (feqb cv (Z2F 1)); [now intros H; elim H | ].
    destruct (fltb (Z2F 0) cv && fltb cv (Z2F 1))%bool; [now intros H; elim H | ].
    destruct (negb (is_integer cv)); [now intros H; elim H | ].
    destruct (fltb (Z2F 10) cv); [reflexivity | now intros H; elim H].
Qed.

(** ** What [to_string] writes, read back *)

Definition percent : ascii := "%"%char.
Definition question : ascii := "?"%char.

(** A character no float is written with: the percent sign, and the
    question mark that stands for what is neither digit nor space. *)
Definition stray (x : ascii) : Prop := x = percent \/ x = question.

Definition has_stray (l : list ascii) : Prop := exists x, stray x /\ In x l.

Lemma digit_not_stray (c : ascii) : is_digit c = true -> ~ stray c.
Proof. intros H [-> | ->]; vm_compute in H; discriminate. Qed.

Lemma space_not_stray (c : ascii) : is_space c = true -> ~ stray c.
Proof. intros H [-> | ->]; vm_compute in H; discriminate. Qed.

Lemma tail_has_stray (c : ascii) (l : list ascii) :
  ~ stray c -> has_stray (c :: l) -> has_stray l.
Proof.
  intros Hc [x [Hx [H | H]]]; [subst; now elim Hc | now exists x].
Qed.

Lemma digits_from_keeps (l : list ascii) :
  has_stray l ->
  forall acc cnt a c rest,
    digits_from l acc cnt = (a, c, rest) -> has_stray rest.
Proof.
  induction l as [ | c0 l IH]; intros Hin acc cnt a c rest.
  - destruct Hin as [x [_ []]].
  - cbn [digits_from].
    destruct (is_digit c0) eqn:Hd.
    + apply IH. exact (tail_has_stray c0 l (digit_not_stray c0 Hd) Hin).
    + destruct cnt as [ | cnt]; [intros H; injection H as _ _ <-; exact Hin | ].
      destruct l as [ | d l']; [intros H; injection H as _ _ <-; exact Hin | ].
      destruct (Ascii.eqb c0 "_" && is_digit d)%bool eqn:Hu.
      * apply IH. apply (tail_has_stray c0); [ | exact Hin].
        apply andb_prop in Hu. destruct Hu as [Hu _].
        apply Ascii.eqb_eq in Hu. subst c0. intros [E | E]; discriminate.
      * intros H; injection H as _ _ <-; exact Hin.
Qed.

Lemma lstrip_keeps (l : list ascii) : has_stray l -> has_stray (lstrip l).
Proof.
  induction l as [ | c l IH]; [easy | ]. cbn [lstrip]. intros Hin.
  destruct (is_space c) eqn:Hs; [ | exact Hin].
  apply IH. exact (tail_has_stray c l (space_not_stray c Hs) Hin).
Qed.

Lemma rev_keeps (l : list ascii) : has_stray l -> has_stray (rev l).
Proof. intros [x [Hx Hin]]. exists x. split; [exact Hx | now apply in_rev in Hin]. Qed.

Lemma strip_keeps (l : list ascii) : has_stray l -> has_stray (strip l).
Proof.
  intros H. unfold strip. now apply rev_keeps, lstrip_keeps, rev_keeps, lstrip_keeps.
Qed.

Lemma sign_of_keeps (l : list ascii) :
  has_stray l -> has_stray (snd (sign_of l)).
Proof.
  destruct l as [ | c l]; [easy | ].
  destruct c as [[] [] [] [] [] [] [] []]; cbn [sign_of snd];
    try (intros H; exact H);
    intros H; apply (tail_has_stray _ l) in H; try exact H;
    intros [E | E]; discriminate.
Qed.

Lemma lower_stray (x : ascii) : stray x -> lower x = x.
Proof. intros [-> | ->]; reflexivity. Qed.

Lemma no_stray_word (l : list ascii) (w : string) :
  has_stray l -> ~ has_stray (list_ascii_of_string w) ->
  String.eqb (string_of_list_ascii (map lower l)) w = false.
Proof.
  intros [x [Hx Hin]] Hw. apply String.eqb_neq. intros E. apply Hw.
  rewrite <- E, list_ascii_of_string_of_list_ascii.
  exists x. split; [exact Hx | ].
  rewrite <- (lower_stray x Hx). now apply in_map.
Qed.

Lemma plain_word (w : string) :
  forallb (fun c => negb (Ascii.eqb c percent || Ascii.eqb c question))
          (list_ascii_of_string w) = true ->
  ~ has_stray (list_ascii_of_string w).
Proof.
  intros H [x [Hx Hin]]. rewrite forallb_forall in H. specialize (H x Hin).
  destruct Hx as [-> | ->]; vm_compute in H; discriminate.
Qed.

Lemma exponent_of_stray (l : list ascii) :
  has_stray l -> exponent_of l = None.
Proof.
  destruct l as [ | c l]; [intros [x [_ []]] | ]. intros Hin.
  cbn [exponent_of].
  destruct (Ascii.eqb (lower c) "e") eqn:He; [ | reflexivity].
  assert (Hc : ~ stray c)
    by (intros [-> | ->]; vm_compute in He; discriminate).
  pose proof (sign_of_keeps l (tail_has_stray c l Hc Hin)) as Hs.
  destruct (sign_of l) as [neg l2]. cbn [snd] in Hs.
  destruct (digits_from l2 0%N 0%nat) as [[x n] rest] eqn:E.
  pose proof (digits_from_keeps l2 Hs _ _ _ _ _ E) as Hr.
  destruct n; [reflexivity | ].
  destruct rest; [destruct Hr as [y [_ []]] | reflexivity].
Qed.

Lemma decimal_of_stray (neg : bool) (l : list ascii) :
  has_stray l -> decimal_of neg l = None.
Proof.
  intros Hin. unfold decimal_of.
  destruct (digits_from l 0%N 0%nat) as [[ip ni] l1] eqn:E1.
  pose proof (digits_from_keeps l Hin _ _ _ _ _ E1) as H1.
  destruct l1 as [ | c l1']; [destruct H1 as [y [_ []]] | ].
  assert (Hrest : forall m nf l2, has_stray l2 ->
            match (ni + nf)%nat with
            | O => None
            | S _ =>
                match exponent_of l2 with
                | Some x => Some (F_of_decimal neg m (x - Z.of_nat nf))
                | None => None
                end
            end = None).
  { intros m nf l2 H2. rewrite (exponent_of_stray l2 H2).
    now destruct (ni + nf)%nat. }
  destruct c as [[] [] [] [] [] [] [] []];
    try (apply Hrest; exact H1).
  apply (tail_has_stray _ l1') in H1; [ | intros [E | E]; discriminate].
  destruct (digits_from l1' ip 0%nat) as [[m n] l2] eqn:E2.
  apply Hrest. exact (digits_from_keeps l1' H1 _ _ _ _ _ E2).
Qed.

(** A percent sign among the bytes is still there among the code points,
    and what [float] reads then has it or ends in a question mark. *)
Lemma decode_keeps (l : list ascii) :
  In percent l ->
  forall need acc lo, In (Some 37%N) (decode need acc lo l).
Proof.
  induction l as [ | b l IH]; [easy | ]. intros [-> | Hin] need acc lo.
  - cbn [decode]. change (N_of_ascii percent) with 37%N.
    change (open_byte 37) with (Single (Some 37%N)).
    destruct need as [ | k]; [now left | ].
    change ((128 <=? 37) && (37 <? 192))%N%bool with false.
    right. now left.
  - cbn [decode].
    assert (Hfresh :
      In (Some 37%N)
         match open_byte (N_of_ascii b) with
         | Single c => c :: decode 0 0%N 0%N l
         | Pending k a lo' => decode k a lo' l
         end).
    { destruct (open_byte (N_of_ascii b)); [right | ]; now apply IH. }
    destruct need as [ | k]; [exact Hfresh | ].
    destruct ((128 <=? N_of_ascii b) && (N_of_ascii b <? 192))%N%bool;
      [ | right; exact Hfresh].
    destruct k; [right | ]; now apply IH.
Qed.

Lemma to_ascii_keeps (l : list (option N)) :
  In (Some 37%N) l -> has_stray (to_ascii l).
Proof.
  assert (Q : forall t, has_stray (question :: t))
    by (intros t; exists question; split; [now right | now left]).
  assert (T : forall c t, has_stray t -> has_stray (c :: t))
    by (intros c t [x [Hx Hin]]; exists x; split; [exact Hx | now right]).
  induction l as [ | [c | ] l IH]; [easy | | intros _; apply Q].
  intros [E | Hin]; cbn [to_ascii].
  - injection E as ->. cbn. exists percent. split; [now left | now left].
  - destruct (c <? 127)%N; [now apply T, IH | ].
    destruct (unicode_space c); [now apply T, IH | ].
    destruct (unicode_decimal c); [now apply T, IH | apply Q].
Qed.

Lemma ascii_text_keeps (s : string) :
  In percent (list_ascii_of_string s) -> has_stray (ascii_text s).
Proof.
  intros Hin. unfold ascii_text.
  destruct (forallb is_ascii_point (code_points s)).
  - exists percent. split; [now left | exact Hin].
  - apply to_ascii_keeps. now apply decode_keeps.
Qed.

(** No string with a percent sign in it is a float. *)
Lemma float_of_str_percent (s : string) :
  In percent (list_ascii_of_string s) -> float_of_str s = None.
Proof.
  intros Hin. unfold float_of_str.
  pose proof (sign_of_keeps _ (strip_keeps _ (ascii_text_keeps s Hin))) as Hs.
  destruct (sign_of (strip (ascii_text s))) as [neg l].
  cbn [snd] in Hs.
  rewrite !(no_stray_word l) by (try exact Hs; now apply plain_word).
  cbn [orb]. now apply decimal_of_stray.
Qed.

Lemma list_ascii_of_append (a b : string) :
  list_ascii_of_string (a ++ b)
  = (list_ascii_of_string a ++ list_ascii_of_string b)%list.
Proof. induction a as [ | c a IH]; cbn; [reflexivity | now rewrite IH]. Qed.

Section WithFormat.
Variable format_float : float -> string.

Lemma holdout_text_has_percent (v : float) :
  In percent (list_ascii_of_string (to_string format_float Holdout v)).
Proof.
  cbn [to_string is_holdout negb]. rewrite list_ascii_of_append.
  apply in_or_app. right. cbn. tauto.
Qed.

(** X4: [from_str] reads back nothing that [to_string] writes: for every
    member, every value and every way of printing a float, the text is
    rejected as not a float. *)
Theorem from_str_rejects_to_string (c : CVSplit) (v : float) :
  from_str (to_string format_float c v) = ([], Raise not_a_float).
Proof.
  destruct c;
    [ vm_compute; reflexivity | vm_compute; reflexivity
    | vm_compute; reflexivity | vm_compute; reflexivity | ].
  unfold from_str.
  now rewrite (float_of_str_percent _ (holdout_text_has_percent v)).
Qed.

(** X5: the member lookup gives a k-fold member back from its text,
    [CVSplit(m.to_string(v)) = m], whatever the value; the text of
    [Holdout] names no member. *)
Theorem lookup_of_to_string (c : CVSplit) (v : float) :
  CVSplit_call (VStr (to_string format_float c v))
  = if is_holdout c then Raise not_a_member else Ok c.
Proof.
  destruct c; [ reflexivity | reflexivity | reflexivity | reflexivity | ].
  cbn [is_holdout]. unfold CVSplit_call.
  assert (H : forall m,
            pyval_eqb (VStr (value m))
                      (VStr (to_string format_float Holdout v)) = false).
  { intros m. cbn [pyval_eqb]. apply String.eqb_neq. intros E.
    pose proof (holdout_text_has_percent v) as Hin. rewrite <- E in Hin.
    destruct m; vm_compute in Hin; intuition discriminate. }
  cbn [members find]. now rewrite !H.
Qed.

End WithFormat.


End CVSplitMore.

(** * More on the three scores *)

Module ScoresMore.
Import Py Pandas FeatureSelection Spec FloatFacts CohensDFacts UnivariateFacts.

Lemma drop_without_target (df : DataFrame) :
  has_column "target" df = false ->
  drop "target" df = Raise (not_in_axis "target").
Proof. intros H. unfold drop. now rewrite H. Qed.

Lemma labels_of_filter (name : string) (l : list (string * list float)) :
  map fst (filter (fun c => negb (String.eqb (fst c) name)) l)
  = filter (fun x => negb (String.eqb x name)) (map fst l).
Proof.
  induction l as [ | a l IH]; cbn [map filter]; [reflexivity | ].
  destruct (String.eqb (fst a) name); cbn [negb map]; now rewrite IH.
Qed.

Lemma drop_with_target (df : DataFrame) :
  has_column "target" df = true ->
  exists X y, drop "target" df = Ok X /\ getitem "target" df = Ok y /\
              columns X
              = filter (fun l => negb (String.eqb l "target")) (columns df).
Proof.
  intros H. unfold drop, getitem. rewrite H.
  unfold has_column, columns in H. apply existsb_exists in H.
  destruct H as [l [Hin Hl]]. apply String.eqb_eq in Hl. subst l.
  apply in_map_iff in Hin. destruct Hin as [c [Hc Hin]].
  destruct (find (fun c => String.eqb (fst c) "target") (cols df)) as [c' | ] eqn:E.
  - eexists. exists (snd c'). repeat split.
    unfold columns. cbn [cols]. apply labels_of_filter.
  - exfalso. apply (find_none _ _ E) in Hin.
    rewrite Hc, String.eqb_refl in Hin. discriminate.
Qed.

Lemma fabs_not_negative (x : float) :
  isnan (fabs x) = true \/ fleb (Z2F 0) (fabs x) = true.
Proof. destruct x; [right | right | left | right]; reflexivity. Qed.

Lemma smap_fabs_not_negative (s : Series) :
  Forall (fun p => isnan (snd p) = true \/ fleb (Z2F 0) (snd p) = true)
         (smap fabs s).
Proof.
  unfold smap. apply Forall_forall. intros p Hp.
  apply in_map_iff in Hp. destruct Hp as [q [<- _]].
  apply fabs_not_negative.
Qed.

(** ** Degenerate groups *)

Definition zero_or_nan (x : float) : Prop :=
  (exists s, x = S754_zero s) \/ x = nan.

Lemma zero_times (x : float) : zero_or_nan (fmul (Z2F 0) x).
Proof.
  rewrite Z2F_0. destruct x as [s | s | | s m e]; cbn;
    [left; eauto | now right | now right | left; eauto].
Qed.

Lemma zero_sum_over_zero (u v : float) :
  zero_or_nan u -> zero_or_nan v -> fdiv (fadd u v) (Z2F 0) = nan.
Proof.
  rewrite Z2F_0.
  intros [[su ->] | ->] [[sv ->] | ->];
    try destruct su; try destruct sv; reflexivity.
Qed.

Lemma over_nan (x : float) : fdiv x (fsqrt nan) = nan.
Proof. destruct x; reflexivity. Qed.

Section WithExternals.
Context {ext : Externals}.

(** X6: on a frame without a ["target"] column each of the three scores
    raises the [KeyError] of [df.drop], ['target'] not found in axis, and
    so does the selection for each of its four metrics, whatever the
    count. *)
Theorem scores_need_a_target (df : DataFrame) :
  has_column "target" df = false ->
  cohens_d df = Raise (not_in_axis "target") /\
  auroc df = Raise (not_in_axis "target") /\
  (forall method, correlations df method = Raise (not_in_axis "target")) /\
  (forall metric n,
     In metric ["d"; "auc"; "pearson"; "spearman"] ->
     select_features_by_univariate_rank df metric n
     = Raise (not_in_axis "target")).
Proof.
  intros H. pose proof (drop_without_target df H) as HX.
  assert (Hd : cohens_d df = Raise (not_in_axis "target"))
    by (unfold cohens_d; now rewrite HX).
  assert (Ha : auroc df = Raise (not_in_axis "target"))
    by (unfold auroc; now rewrite HX).
  assert (Hc : forall method, correlations df method = Raise (not_in_axis "target"))
    by (intros method; unfold correlations; now rewrite HX).
  repeat split; try assumption.
  intros metric n [<- | [<- | [<- | [<- | []]]]];
    unfold select_features_by_univariate_rank; cbn [str_lower];
    rewrite ?Hd, ?Ha, ?Hc; reflexivity.
Qed.

(** X7: on a frame with distinct labels, each score is indexed by the
    feature columns of the frame, in the frame's order and without the
    target; [cohens_d] returns one on every such frame that has a
    target, empty and one-row groups included. *)
Theorem scores_are_per_feature (df : DataFrame) :
  NoDup (columns df) ->
  has_column "target" df = true ->
  let features :=
    filter (fun l => negb (String.eqb l "target")) (columns df) in
  (exists s, cohens_d df = Ok s /\ index s = features) /\
  (forall s, auroc df = Ok s -> index s = features) /\
  (forall method s, correlations df method = Ok s -> index s = features).
Proof.
  intros _ H features.
  destruct (drop_with_target df H) as [X [y [HX [Hy Hcols]]]].
  fold features in Hcols. split; [ | split].
  - eexists. split; [exact (cohens_d_columnwise df X y HX Hy) | ].
    unfold index, per_column. rewrite map_map. exact Hcols.
  - intros s Hs. destruct (auroc_index df s Hs) as [X' [HX' E]].
    rewrite HX in HX'. injection HX' as <-. now rewrite E.
  - intros method s Hs.
    destruct (correlations_index df method s Hs) as [X' [HX' E]].
    rewrite HX in HX'. injection HX' as <-. now rewrite E.
Qed.

(** X8: no score of [auroc] or [correlations] is negative: each is NaN or
    at least 0, whatever [roc_auc_score] and [corrwith] return. *)
Theorem rescaled_scores_not_negative (df : DataFrame) (s : Series) :
  (auroc df = Ok s \/ exists method, correlations df method = Ok s) ->
  Forall (fun p => isnan (snd p) = true \/ fleb (Z2F 0) (snd p) = true) s.
Proof.
  intros [H | [method H]].
  - unfold auroc in H.
    destruct (drop "target" df) as [X | e]; cbn [bind] in H; [ | discriminate].
    destruct (getitem "target" df) as [y | e]; cbn [bind] in H; [ | discriminate].
    destruct (for_each _ (cols X)) as [aucs | e]; cbn [bind] in H;
      [ | discriminate].
    injection H as <-. apply smap_fabs_not_negative.
  - unfold correlations in H.
    destruct (drop "target" df) as [X | e]; cbn [bind] in H; [ | discriminate].
    destruct (getitem "target" df) as [y | e]; cbn [bind] in H; [ | discriminate].
    destruct (for_each _ (cols X)) as [r | e]; cbn [bind] in H;
      [ | discriminate].
    injection H as <-. apply smap_fabs_not_negative.
Qed.

(** X9: on a frame with distinct labels where each of the two groups
    has exactly one row, [cohens_d]
    gives NaN for every feature, whatever the means and the standard
    deviations are: the pooled deviation is the root of [0 / 0]. *)
Theorem single_row_groups_give_nan (df X : DataFrame) (y : list float) :
  NoDup (columns df) ->
  drop "target" df = Ok X ->
  getitem "target" df = Ok y ->
  group_size y 0 = 1 -> group_size y 1 = 1 ->
  cohens_d df = Ok (map (fun c => (fst c, nan)) (cols X)).
Proof.
  intros _ HX Hy H0 H1. rewrite (cohens_d_columnwise df X y HX Hy).
  f_equal. apply per_column_ext. intros c.
  unfold cohens_d_column. rewrite H0, H1.
  change (1 - 1) with 0. change (0 + 0) with 0.
  rewrite (zero_sum_over_zero _ _ (zero_times _) (zero_times _)).
  apply over_nan.
Qed.

End WithExternals.

Lemma scores_need_a_target_witness :
  cohens_d (ext := Plain.externals) (mkFrame 1 [("size", [Z2F 1])])
  = Raise (not_in_axis "target").
Proof.
  apply (scores_need_a_target (ext := Plain.externals)
           (mkFrame 1 [("size", [Z2F 1])])).
  reflexivity.
Defined.

Lemma toy_distinct : NoDup (columns Plain.toy).
Proof.
  unfold columns. cbn.
  repeat (constructor; [cbn; intuition discriminate | ]). constructor.
Qed.

Lemma scores_are_per_feature_witness :
  exists s, cohens_d (ext := Plain.externals) Plain.toy = Ok s /\
            index s = ["size"; "shade"].
Proof.
  apply (scores_are_per_feature (ext := Plain.externals) Plain.toy).
  - exact toy_distinct.
  - reflexivity.
Defined.

Lemma rescaled_scores_not_negative_witness :
  Forall (fun p => isnan (snd p) = true \/ fleb (Z2F 0) (snd p) = true)
         [("size", F_of_decimal false 5 (-1)); ("shade", Z2F 0)].
Proof.
  apply (rescaled_scores_not_negative (ext := Plain.externals) Plain.toy).
  left. vm_compute. reflexivity.
Defined.

(** Two samples, one of each label. *)
Definition pair_frame : DataFrame :=
  mkFrame 2 [("size", map Z2F [1; 3]); ("target", map Z2F [0; 1])].

Lemma single_row_groups_give_nan_witness :
  cohens_d (ext := Plain.externals) pair_frame = Ok [("size", nan)].
Proof.
  apply (single_row_groups_give_nan (ext := Plain.externals) pair_frame
           (mkFrame 2 [("size", map Z2F [1; 3])]) (map Z2F [0; 1]));
    try reflexivity.
  unfold columns. cbn.
  repeat (constructor; [cbn; intuition discriminate | ]). constructor.
Defined.

End ScoresMore.

(** * More on [select_features_by_univariate_rank] *)

Module SelectionMore.
Import Py Pandas FeatureSelection FloatFacts UnivariateFacts ScoresMore.

(** ** The order of the scores *)

(** [a] is not below [b]. *)
Definition not_below (a b : float) : Prop := fltb a b = false.

Lemma fltb_finite (s1 s2 : bool) (m1 m2 : positive) (e1 e2 : Z) :
  fltb (S754_finite s1 m1 e1) (S754_finite s2 m2 e2) = true <->
  match s1, s2 with
  | true, false => True
  | false, true => False
  | false, false => e1 < e2 \/ (e1 = e2 /\ (m1 < m2)%positive)
  | true, true => e2 < e1 \/ (e1 = e2 /\ (m2 < m1)%positive)
  end.
Proof.
  unfold fltb, SFltb. cbn [SFcompare]. rewrite Pos.compare_cont_spec.
  destruct s1, s2; try (split; [easy | congruence]); try easy;
    destruct (Z.compare_spec e1 e2) as [He | He | He];
    destruct (Pos.compare_spec m1 m2) as [Hm | Hm | Hm];
    cbn; split; try congruence; try tauto; try lia; intros _; lia.
Qed.

Lemma not_below_trans (a b c : float) :
  isnan b = false ->
  not_below a b -> not_below b c -> not_below a c.
Proof.
  unfold not_below. intros Hb Hab Hbc.
  destruct (fltb a c) eqn:Hac; [exfalso | reflexivity].
  destruct a as [sa | sa | | sa ma ea], b as [sb | sb | | sb mb eb],
    c as [sc | sc | | sc mc ec];
    try discriminate;
    try (destruct sa, sb, sc; discriminate).
  apply fltb_finite in Hac.
  assert (Hab' := proj2 (fltb_finite sa sb ma mb ea eb)).
  assert (Hbc' := proj2 (fltb_finite sb sc mb mc eb ec)).
  rewrite Hab in Hab'. rewrite Hbc in Hbc'.
  destruct sa, sb, sc; try tauto;
    try (assert (true = false) by (apply Hab'; exact I); discriminate);
    try (assert (true = false) by (apply Hbc'; exact I); discriminate);
    assert (~ (true = false)) by discriminate; lia.
Qed.

(** [p] ranks before [q]: its score is not below, and a NaN score comes
    before NaN scores only. *)
Definition ranks_before (p q : string * float) : Prop :=
  not_below (snd p) (snd q) /\ (isnan (snd p) = true -> isnan (snd q) = true).

Definition numeric (p : string * float) : Prop := isnan (snd p) = false.

Lemma insert_desc_perm (p : string * float) (s : Series) :
  Permutation (insert_desc p s) (p :: s).
Proof.
  induction s as [ | q s IH]; cbn [insert_desc]; [reflexivity | ].
  destruct (fltb (snd p) (snd q)); [ | reflexivity].
  rewrite IH. apply perm_swap.
Qed.

Lemma insertion_perm (t : Series) :
  Permutation (fold_right insert_desc [] t) t.
Proof.
  induction t as [ | p t IH]; cbn [fold_right]; [reflexivity | ].
  rewrite insert_desc_perm. now apply perm_skip.
Qed.

Lemma partition_perm {A : Type} (f : A -> bool) (l : list A) :
  Permutation (filter (fun x => negb (f x)) l ++ filter f l) l.
Proof.
  induction l as [ | a l IH]; cbn [filter]; [reflexivity | ].
  destruct (f a); cbn [negb].
  - symmetry. apply Permutation_cons_app. now symmetry.
  - cbn [app]. now apply perm_skip.
Qed.

Lemma sort_values_desc_perm (s : Series) :
  Permutation (sort_values_desc s) s.
Proof.
  unfold sort_values_desc.
  rewrite insertion_perm.
  exact (partition_perm (fun p => isnan (snd p)) s).
Qed.

Lemma insert_desc_sorted (p : string * float) (s : Series) :
  numeric p -> Forall numeric s ->
  StronglySorted ranks_before s ->
  StronglySorted ranks_before (insert_desc p s).
Proof.
  intros Hp Hs Hsorted. induction Hsorted as [ | q s Hsorted IH Hq];
    cbn [insert_desc].
  - constructor; constructor.
  - inversion Hs as [ | q' s' Hqn Hsn]; subst.
    destruct (fltb (snd p) (snd q)) eqn:Hpq.
    + constructor; [now apply IH | ].
      apply (Permutation_Forall (x := p :: s));
        [symmetry; apply insert_desc_perm | ].
      constructor; [ | exact Hq].
      split; [exact (fltb_asym _ _ Hpq) | unfold numeric in Hqn; congruence].
    + constructor; [now constructor | ].
      constructor; [split; [exact Hpq | unfold numeric in Hp; congruence] | ].
      rewrite Forall_forall in Hq |- *. intros r Hr.
      destruct (Hq r Hr) as [Hqr _].
      split; [ | unfold numeric in Hp; congruence].
      exact (not_below_trans _ _ _ Hqn Hpq Hqr).
Qed.

Lemma insertion_sorted (t : Series) :
  Forall numeric t ->
  StronglySorted ranks_before (fold_right insert_desc [] t) /\
  Forall numeric (fold_right insert_desc [] t).
Proof.
  induction 1 as [ | p t Hp Ht [IHs IHn]]; cbn [fold_right].
  - split; constructor.
  - split; [now apply insert_desc_sorted | ].
    apply (Permutation_Forall (x := p :: fold_right insert_desc [] t));
      [symmetry; apply insert_desc_perm | now constructor].
Qed.

Lemma sorted_then_nan (l nans : Series) :
  StronglySorted ranks_before l -> Forall numeric l ->
  Forall (fun p => isnan (snd p) = true) nans ->
  StronglySorted ranks_before (l ++ nans).
Proof.
  intros Hl Hn Hnan.
  assert (Hany : forall p, Forall (ranks_before p) nans).
  { intros p. revert Hnan. apply Forall_impl. intros q Hq.
    split; [ | intros _; exact Hq].
    unfold not_below, fltb, SFltb. destruct (snd q); try discriminate.
    now destruct (snd p). }
  induction Hl as [ | p l Hl IH Hp]; cbn [app].
  - induction Hnan as [ | q nans Hq Hnan IH]; constructor.
    + apply IH. intros p. specialize (Hany p). now inversion Hany.
    + specialize (Hany q). now inversion Hany.
  - inversion Hn; subst. constructor; [now apply IH | ].
    apply Forall_app. split; [exact Hp | apply Hany].
Qed.

Lemma sort_values_desc_sorted (s : Series) :
  StronglySorted ranks_before (sort_values_desc s).
Proof.
  unfold sort_values_desc.
  assert (Hnum : Forall numeric (filter (fun p => negb (isnan (snd p))) s)).
  { apply Forall_forall. intros p Hp. apply filter_In in Hp.
    unfold numeric. destruct Hp as [_ Hp]. now destruct (isnan (snd p)). }
  destruct (insertion_sorted _ Hnum) as [Hs Hn].
  apply sorted_then_nan; [exact Hs | exact Hn | ].
  apply Forall_forall. intros p Hp. now apply filter_In in Hp.
Qed.

Lemma sorted_cut (k : nat) (l : Series) (p q : string * float) :
  StronglySorted ranks_before l ->
  In p (firstn k l) -> In q (skipn k l) -> ranks_before p q.
Proof.
  intros Hl. revert k. induction Hl as [ | a l Hl IH Ha]; intros k.
  - destruct k; cbn; easy.
  - destruct k as [ | k]; cbn [firstn skipn]; [easy | ].
    intros [<- | Hp] Hq.
    + rewrite Forall_forall in Ha. apply Ha.
      rewrite <- (firstn_skipn k l). apply in_or_app. now right.
    + exact (IH k Hp Hq).
Qed.

(** [l[:n]] is a prefix of [l]. *)
Definition slice_len {A : Type} (n : Z) (l : list A) : nat :=
  if 0 <=? n then Z.to_nat n else List.length l - Z.to_nat (- n).

Lemma slice_to_firstn {A : Type} (n : Z) (l : list A) :
  slice_to n l = firstn (slice_len n l) l.
Proof. unfold slice_to, slice_len. now destruct (0 <=? n). Qed.

Lemma slice_to_length {A : Type} (n : Z) (l : list A) :
  Z.of_nat (List.length (slice_to n l))
  = if 0 <=? n then Z.min n (Z.of_nat (List.length l))
    else Z.max 0 (Z.of_nat (List.length l) + n).
Proof.
  unfold slice_to. destruct (0 <=? n) eqn:Hn; rewrite length_firstn.
  - apply Z.leb_le in Hn. lia.
  - apply Z.leb_gt in Hn. lia.
Qed.

(** ** Columns by label *)

Lemma getitem_of_label (l : string) (df : DataFrame) :
  In l (columns df) -> exists c, getitem l df = Ok c.
Proof.
  unfold columns, getitem. intros Hin.
  apply in_map_iff in Hin. destruct Hin as [c [Hc Hin]].
  destruct (find (fun c => String.eqb (fst c) l) (cols df)) as [c' | ] eqn:E;
    [now exists (snd c') | exfalso].
  apply (find_none _ _ E) in Hin. rewrite Hc, String.eqb_refl in Hin.
  discriminate.
Qed.

Lemma drop_columns (df X : DataFrame) :
  drop "target" df = Ok X ->
  columns X = filter (fun l => negb (String.eqb l "target")) (columns df).
Proof.
  unfold drop. destruct (has_column "target" df); [ | discriminate].
  intros H. injection H as <-. unfold columns. cbn [cols].
  apply labels_of_filter.
Qed.

Lemma for_each_getitem (df : DataFrame) (labels : list string) :
  (forall l, In l labels -> In l (columns df)) ->
  exists cs,
    for_each (fun l => bind (getitem l df) (fun c => Ok (l, c))) labels = Ok cs.
Proof.
  induction labels as [ | l labels IH]; intros H; cbn [for_each].
  - now exists [].
  - destruct (getitem_of_label l df (H l (or_introl eq_refl))) as [c Hc].
    destruct IH as [cs Hcs]; [intros l' Hl'; apply H; now right | ].
    rewrite Hc, Hcs. cbn [bind]. eauto.
Qed.

Lemma for_each_getitem_sound (df : DataFrame) (labels : list string)
    (cs : list (string * list float)) :
  for_each (fun l => bind (getitem l df) (fun c => Ok (l, c))) labels = Ok cs ->
  Forall (fun c => getitem (fst c) df = Ok (snd c)) cs.
Proof.
  revert cs. induction labels as [ | l labels IH]; intros cs; cbn [for_each].
  - intros H. injection H as <-. constructor.
  - destruct (getitem l df) as [c | e] eqn:Hc; cbn [bind]; [ | discriminate].
    destruct (for_each _ labels) as [cs' | e]; cbn [bind]; [ | discriminate].
    intros H. injection H as <-. constructor; [exact Hc | now apply IH].
Qed.

Section WithExternals.
Context {ext : Externals}.

(** The scores [select_features_by_univariate_rank] ranks: the branch on
    the metric, before sorting. *)
Definition scores (df : DataFrame) (metric : string) : result Series :=
  if String.eqb (str_lower metric) "d" then cohens_d df
  else if String.eqb (str_lower metric) "auc" then auroc df
  else if (String.eqb (str_lower metric) "pearson"
           || String.eqb (str_lower metric) "spearman")%bool
  then correlations df metric
  else Raise (ValueError "Invalid metric").

Lemma select_by_scores (df : DataFrame) (metric : string) (n : Z) :
  select_features_by_univariate_rank df metric n
  = bind (scores df metric)
         (fun s => loc_cols (index (slice_to n (sort_values_desc s))) df).
Proof.
  unfold select_features_by_univariate_rank, scores.
  destruct (String.eqb (str_lower metric) "d");
    [now destruct (cohens_d df) | ].
  destruct (String.eqb (str_lower metric) "auc");
    [now destruct (auroc df) | ].
  destruct (String.eqb (str_lower metric) "pearson"
            || String.eqb (str_lower metric) "spearman")%bool;
    [now destruct (correlations df metric) | reflexivity].
Qed.

Lemma scores_index (df : DataFrame) (metric : string) (s : Series) :
  scores df metric = Ok s ->
  index s = filter (fun l => negb (String.eqb l "target")) (columns df).
Proof.
  unfold scores. intros H.
  assert (G : (exists X, drop "target" df = Ok X /\ index s = columns X) ->
              index s
              = filter (fun l => negb (String.eqb l "target")) (columns df)).
  { intros [X [HX E]]. rewrite E. now apply drop_columns. }
  destruct (String.eqb (str_lower metric) "d");
    [now apply G, cohens_d_index | ].
  destruct (String.eqb (str_lower metric) "auc");
    [now apply G, auroc_index | ].
  destruct (String.eqb (str_lower metric) "pearson"
            || String.eqb (str_lower metric) "spearman")%bool;
    [now apply G, (correlations_index df metric) | discriminate].
Qed.

Lemma ranked_labels_in_frame (df : DataFrame) (metric : string) (s : Series)
    (n : Z) (l : string) :
  scores df metric = Ok s ->
  In l (index (slice_to n (sort_values_desc s))) -> In l (columns df).
Proof.
  intros Hs Hin.
  assert (H : In l (index s)).
  { unfold index in *. apply in_map_iff in Hin.
    destruct Hin as [q [Hq Hin]]. apply in_map_iff. exists q.
    split; [exact Hq | ].
    exact (sort_values_desc_In q s (slice_to_In n q _ Hin)). }
  rewrite (scores_index df metric s Hs) in H.
  now apply filter_In in H.
Qed.

(** X10: on a frame with distinct labels (pandas returns every column
    of a repeated label), once the scores are there the selection cannot
    fail: it returns [n] columns for a count [0 <= n] of at most the
    number [f] of features, all [f] for a larger count (no error), and
    [f + n] columns for a negative count (none below [-f]): the [-n]
    weakest are left out. *)
Theorem selection_count (df : DataFrame) (metric : string) (n : Z)
    (s : Series) :
  NoDup (columns df) ->
  scores df metric = Ok s ->
  let f := Z.of_nat (List.length
             (filter (fun l => negb (String.eqb l "target")) (columns df))) in
  exists out,
    select_features_by_univariate_rank df metric n = Ok out /\
    nrows out = nrows df /\
    Z.of_nat (List.length (cols out))
    = if 0 <=? n then Z.min n f else Z.max 0 (f + n).
Proof.
  intros _ Hs f. rewrite select_by_scores, Hs. cbn [bind]. unfold loc_cols.
  destruct (for_each_getitem df (index (slice_to n (sort_values_desc s))))
    as [cs Hcs];
    [intros l; exact (ranked_labels_in_frame df metric s n l Hs) | ].
  rewrite Hcs. cbn [bind]. eexists. split; [reflexivity | ].
  split; [reflexivity | ]. cbn [cols].
  pose proof (for_each_labels (fun l => l) (fun l => getitem l df) _ _ Hcs) as E.
  rewrite map_id in E.
  rewrite <- (length_map fst cs), E. unfold index. rewrite length_map.
  rewrite slice_to_length.
  rewrite (Permutation_length (sort_values_desc_perm s)).
  unfold f. rewrite <- (scores_index df metric s Hs).
  unfold index. now rewrite length_map.
Qed.

(** X11: on a frame with distinct labels, every column of the frame
    returned is the frame's own column of that label, values unchanged,
    and the rows are as many as the frame's. *)
Theorem selected_columns_unchanged (df out : DataFrame) (metric : string)
    (n : Z) :
  NoDup (columns df) ->
  select_features_by_univariate_rank df metric n = Ok out ->
  nrows out = nrows df /\
  Forall (fun c => getitem (fst c) df = Ok (snd c)) (cols out).
Proof.
  intros _. rewrite select_by_scores.
  destruct (scores df metric) as [s | e]; cbn [bind]; [ | discriminate].
  unfold loc_cols.
  destruct (for_each _ (index _)) as [cs | e] eqn:E; cbn [bind];
    [ | discriminate].
  intros H. injection H as <-. split; [reflexivity | ].
  exact (for_each_getitem_sound df _ cs E).
Qed.

(** X12: on a frame with distinct labels, the features returned are a
    top of the ranking: they and the
    features left out are together the scored features, no feature left
    out has a score above that of a feature returned, and a feature with
    a NaN score is returned only when every feature left out has one. *)
Theorem selection_is_a_top (df out : DataFrame) (metric : string) (n : Z) :
  NoDup (columns df) ->
  select_features_by_univariate_rank df metric n = Ok out ->
  exists s top rest,
    scores df metric = Ok s /\
    Permutation (top ++ rest) s /\
    columns out = index top /\
    forall p q, In p top -> In q rest ->
      fltb (snd p) (snd q) = false /\
      (isnan (snd p) = true -> isnan (snd q) = true).
Proof.
  intros _. rewrite select_by_scores.
  destruct (scores df metric) as [s | e]; cbn [bind]; [ | discriminate].
  intros H. apply loc_cols_columns in H.
  set (k := slice_len n (sort_values_desc s)).
  exists s, (firstn k (sort_values_desc s)), (skipn k (sort_values_desc s)).
  split; [reflexivity | ]. split; [ | split].
  - rewrite firstn_skipn. apply sort_values_desc_perm.
  - rewrite H, slice_to_firstn. reflexivity.
  - intros p q Hp Hq.
    exact (sorted_cut k _ p q (sort_values_desc_sorted s) Hp Hq).
Qed.

(** X13: on a frame with distinct labels and for a count of at least
    the number of features, the columns returned are the feature columns
    of the frame, each once, and no other. *)
Theorem selection_of_all (df out : DataFrame) (metric : string) (n : Z) :
  NoDup (columns df) ->
  select_features_by_univariate_rank df metric n = Ok out ->
  Z.of_nat (List.length
     (filter (fun l => negb (String.eqb l "target")) (columns df))) <= n ->
  Permutation (columns out)
    (filter (fun l => negb (String.eqb l "target")) (columns df)).
Proof.
  intros _. rewrite select_by_scores.
  destruct (scores df metric) as [s | e] eqn:Hs; cbn [bind]; [ | discriminate].
  intros H Hn. apply loc_cols_columns in H. rewrite H.
  rewrite <- (scores_index df metric s Hs) in Hn |- *.
  unfold slice_to. replace (0 <=? n) with true by (symmetry; apply Z.leb_le; lia).
  rewrite firstn_all2.
  - unfold index. apply Permutation_map. apply sort_values_desc_perm.
  - rewrite (Permutation_length (sort_values_desc_perm s)).
    unfold index in Hn. rewrite length_map in Hn. lia.
Qed.

(** X14: a metric that is none of [d], [auc], [pearson], [spearman] in
    lower case is a [ValueError("Invalid metric")], raised before the
    frame is looked at. *)
Theorem invalid_metric_is_rejected (df : DataFrame) (metric : string) (n : Z) :
  existsb (String.eqb (str_lower metric)) ["d"; "auc"; "pearson"; "spearman"]
  = false ->
  select_features_by_univariate_rank df metric n
  = Raise (ValueError "Invalid metric").
Proof.
  cbn [existsb]. rewrite !orb_false_iff.
  intros [Hd [Ha [Hp [Hs _]]]].
  unfold select_features_by_univariate_rank. now rewrite Hd, Ha, Hp, Hs.
Qed.

End WithExternals.

(** The frame [Plain.toy] cut down to its feature [size]. *)
Definition toy_size : DataFrame :=
  mkFrame 4 [("size", map Z2F [1; 2; 4; 7])].

Lemma toy_selects_size :
  select_features_by_univariate_rank (ext := Plain.externals) Plain.toy "d" 1
  = Ok toy_size.
Proof. vm_compute. reflexivity. Qed.

Lemma selection_count_witness :
  exists out,
    select_features_by_univariate_rank (ext := Plain.externals)
      Plain.toy "d" 5 = Ok out /\
    nrows out = nrows Plain.toy /\
    Z.of_nat (List.length (cols out)) = 2.
Proof.
  assert (E : exists s, scores (ext := Plain.externals) Plain.toy "d" = Ok s)
    by (vm_compute; eauto).
  destruct E as [s E].
  exact (selection_count (ext := Plain.externals) Plain.toy "d" 5 s
           toy_distinct E).
Defined.

Lemma selected_columns_unchanged_witness :
  nrows toy_size = nrows Plain.toy /\
  Forall (fun c => getitem (fst c) Plain.toy = Ok (snd c)) (cols toy_size).
Proof.
  exact (selected_columns_unchanged (ext := Plain.externals) Plain.toy
           toy_size "d" 1 toy_distinct toy_selects_size).
Defined.

Lemma selection_is_a_top_witness :
  exists s top rest,
    scores (ext := Plain.externals) Plain.toy "d" = Ok s /\
    Permutation (top ++ rest) s /\
    columns toy_size = index top /\
    forall p q, In p top -> In q rest ->
      fltb (snd p) (snd q) = false /\
      (isnan (snd p) = true -> isnan (snd q) = true).
Proof.
  exact (selection_is_a_top (ext := Plain.externals) Plain.toy toy_size
           "d" 1 toy_distinct toy_selects_size).
Defined.

Lemma selection_of_all_witness :
  Permutation ["size"; "shade"] ["size"; "shade"].
Proof.
  refine (selection_of_all (ext := Plain.externals) Plain.toy
            (mkFrame 4 (firstn 2 (cols Plain.toy))) "auc" 5
            toy_distinct _ _).
  - vm_compute. reflexivity.
  - vm_compute. discriminate.
Defined.

Lemma invalid_metric_is_rejected_witness :
  select_features_by_univariate_rank (ext := Plain.externals)
    Plain.toy "kendall" 1 = Raise (ValueError "Invalid metric").
Proof.
  apply (invalid_metric_is_rejected (ext := Plain.externals)). reflexivity.
Defined.

End SelectionMore.

(** * More on [remove_weak_features]: calls one after another *)

Module CacheMore.
Import Py Pandas FeatureSelection WeakFeaturesFacts.

Section WithExternals.
Context {ext : Externals}.

(** A session: calls one after another, each started with the file the
    one before left.  The outcomes, and the file at the end. *)
Fixpoint run_session (session : list (DataFrame * bool)) (cache : option json)
  : list outcome * option json :=
  match session with
  | [] => ([], cache)
  | (df, decorrelate) :: session' =>
      let o := remove_weak_features df decorrelate cache in
      let '(os, c) := run_session session' (cache_after o) in
      (o :: os, c)
  end.

Lemma session_with_cache (session : list (DataFrame * bool)) (text : json) :
  snd (run_session session (Some text)) = Some text /\
  Forall (fun o => ret o = RFrame (read_json text) /\
                   calls (trace o) = [] /\ writes (trace o) = [])
         (fst (run_session session (Some text))).
Proof.
  induction session as [ | [df d] session [IHc IHo]]; cbn [run_session].
  - split; [reflexivity | constructor].
  - cbn [remove_weak_features cache_after].
    destruct (run_session session (Some text)) as [os c].
    cbn [fst snd] in *. split; [exact IHc | ].
    constructor; [repeat split | exact IHo].
Qed.

(** X15: the artifact is written once: from the moment it exists, every
    call of a session returns the frame read from it, runs no stage and
    writes nothing, whatever frames and flags the calls are given, and
    the artifact is the same at the end. *)
Theorem artifact_is_written_once (session : list (DataFrame * bool))
    (text : json) :
  snd (run_session session (Some text)) = Some text /\
  Forall (fun o => ret o = RFrame (read_json text) /\
                   calls (trace o) = [] /\ writes (trace o) = [])
         (fst (run_session session (Some text))).
Proof. exact (session_with_cache session text). Qed.

(** X16: after one call with [decorrelate] set and no artifact (a call
    that returns [None]), every later call returns the frame that call
    filtered from its own input, read back from the artifact, and not a
    frame computed from the later call's input. *)
Theorem later_calls_return_first_result (df : DataFrame)
    (session : list (DataFrame * bool)) :
  let df_c :=
    remove_highly_correlated_features pct_corr_threshold
      (remove_low_information_features (remove_single_value_features df)) in
  let first := remove_weak_features df true None in
  ret first = RNone /\
  Forall (fun o => ret o = RFrame (read_json (to_json df_c)))
         (fst (run_session session (cache_after first))) /\
  snd (run_session session (cache_after first)) = Some (to_json df_c).
Proof.
  cbv zeta. cbn [remove_weak_features negb cache_after ret].
  split; [reflexivity | ].
  destruct (session_with_cache session
              (to_json (remove_highly_correlated_features pct_corr_threshold
                 (remove_low_information_features
                    (remove_single_value_features df))))) as [Hc Ho].
  split; [ | exact Hc].
  revert Ho. apply Forall_impl. now intros o [H _].
Qed.

(** X17: calls without [decorrelate] leave no artifact: a session of
    such calls that starts without one ends without one, and each call
    returns the frame filtered from its own input. *)
Theorem plain_sessions_leave_no_artifact (session : list (DataFrame * bool)) :
  Forall (fun call => snd call = false) session ->
  snd (run_session session None) = None /\
  Forall2 (fun call o =>
             ret o = RFrame (remove_low_information_features
                               (remove_single_value_features (fst call))))
          session (fst (run_session session None)).
Proof.
  induction 1 as [ | [df d] session Hd _ [IHc IHo]]; cbn [run_session].
  - split; [reflexivity | constructor].
  - cbn [snd] in Hd. subst d. cbn [remove_weak_features negb cache_after].
    destruct (run_session session None) as [os c]. cbn [fst snd] in *.
    split; [exact IHc | ]. constructor; [reflexivity | exact IHo].
Qed.

End WithExternals.

Lemma plain_sessions_leave_no_artifact_witness :
  snd (run_session (ext := Plain.externals)
         [(Plain.toy, false); (Plain.toy, false)] None) = None.
Proof.
  apply (plain_sessions_leave_no_artifact (ext := Plain.externals)
           [(Plain.toy, false); (Plain.toy, false)]).
  repeat constructor.
Defined.

End CacheMore.

(** * More on the two projections *)

Module ProjectionMore.
Import Py Pandas FeatureSelection.

Lemma str_of_nat_inj (i j : nat) : str_of_nat i = str_of_nat j -> i = j.
Proof.
  unfold str_of_nat. intros E.
  assert (N : forall n, Nat.to_uint n <> Decimal.Nil).
  { intros n Hn. pose proof (DecimalNat.Unsigned.of_to n) as H.
    rewrite Hn in H. cbn in H. subst n. discriminate. }
  apply (f_equal NilZero.uint_of_string) in E.
  rewrite !NilZero.usu in E by apply N.
  injection E as E. now apply DecimalNat.Unsigned.to_uint_inj.
Qed.

Lemma append_inj (prefix a b : string) : prefix ++ a = prefix ++ b -> a = b.
Proof.
  induction prefix as [ | c prefix IH]; cbn; [easy | ].
  intros H. injection H as H. now apply IH.
Qed.

Definition labels (prefix : string) (k : nat) : list string :=
  map (fun i => prefix ++ str_of_nat i) (seq 0 k).

Lemma labels_NoDup (prefix : string) (k : nat) : NoDup (labels prefix k).
Proof.
  unfold labels. apply NoDup_map_NoDup_ForallPairs; [ | apply seq_NoDup].
  intros i j _ _ E. exact (str_of_nat_inj i j (append_inj prefix _ _ E)).
Qed.

Lemma fst_combine {A B : Type} (l : list A) (l' : list B) :
  List.length l = List.length l' -> map fst (combine l l') = l.
Proof.
  revert l'. induction l as [ | a l IH]; intros [ | b l']; cbn;
    try discriminate; try reflexivity.
  intros H. f_equal. apply IH. now injection H.
Qed.

(** The frame made of a projected array. *)
Lemma frame_of_array_shape (prefix : string) (a : ndarray) :
  nrows (frame_of_array prefix a) = arows a /\
  columns (frame_of_array prefix a) = labels prefix (List.length (acols a)) /\
  map snd (cols (frame_of_array prefix a)) = acols a.
Proof.
  unfold frame_of_array, columns, labels. cbn [nrows cols].
  assert (L : List.length (map (fun i => prefix ++ str_of_nat i)
                               (seq 0 (List.length (acols a))))
              = List.length (acols a))
    by (rewrite length_map, length_seq; reflexivity).
  split; [reflexivity | split].
  - now apply fst_combine.
  - now apply ProjectionFacts.snd_combine.
Qed.

Lemma no_target_label (prefix : string) (k : nat) :
  (forall s, prefix ++ s <> "target") ->
  existsb (String.eqb "target") (labels prefix k) = false.
Proof.
  intros H. destruct (existsb _ _) eqn:E; [exfalso | reflexivity].
  apply existsb_exists in E. destruct E as [l [Hin Hl]].
  apply String.eqb_eq in Hl. subst l. unfold labels in Hin.
  apply in_map_iff in Hin. destruct Hin as [i [Hi _]]. exact (H _ Hi).
Qed.

Section WithExternals.
Context {ext : Externals}.

(** X18: what the two projections return has the rows and the columns
    of the projected array, the columns named [pca-0], [pca-1], ... (or
    [kpca-0], ...) in order; the names are distinct, none of them is a
    label of the input frame unless it has that form, and there is no
    ["target"] column. *)
Theorem projected_frame_shape (df out : DataFrame) (n : Z) :
  (get_pca_features df n = Ok out ->
   exists reduced,
     PCA_fit_transform n (to_numpy df) = Ok reduced /\
     nrows out = arows reduced /\
     map snd (cols out) = acols reduced /\
     columns out = labels "pca-" (List.length (acols reduced)) /\
     NoDup (columns out) /\ has_column "target" out = false) /\
  (get_kernel_pca_features df n = Ok out ->
   exists reduced,
     KernelPCA_fit_transform n SEED (to_numpy df) = Ok reduced /\
     nrows out = arows reduced /\
     map snd (cols out) = acols reduced /\
     columns out = labels "kpca-" (List.length (acols reduced)) /\
     NoDup (columns out) /\ has_column "target" out = false).
Proof.
  split.
  - unfold get_pca_features.
    destruct (PCA_fit_transform n (to_numpy df)) as [reduced | e];
      cbn [bind]; [ | discriminate].
    intros H. injection H as <-. exists reduced.
    destruct (frame_of_array_shape "pca-" reduced) as [Hr [Hc Hv]].
    repeat split; try assumption.
    + rewrite Hc. apply labels_NoDup.
    + unfold has_column. rewrite Hc. apply no_target_label.
      intros s. discriminate.
  - unfold get_kernel_pca_features.
    destruct (KernelPCA_fit_transform n SEED (to_numpy df)) as [reduced | e];
      cbn [bind]; [ | discriminate].
    intros H. injection H as <-. exists reduced.
    destruct (frame_of_array_shape "kpca-" reduced) as [Hr [Hc Hv]].
    repeat split; try assumption.
    + rewrite Hc. apply labels_NoDup.
    + unfold has_column. rewrite Hc. apply no_target_label.
      intros s. discriminate.
Qed.

End WithExternals.

Lemma projected_frame_shape_witness :
  exists out,
    get_pca_features (ext := Plain.externals) Plain.toy 2 = Ok out /\
    columns out = ["pca-0"; "pca-1"] /\ has_column "target" out = false.
Proof.
  assert (E : exists out,
            get_pca_features (ext := Plain.externals) Plain.toy 2 = Ok out)
    by (vm_compute; eauto).
  destruct E as [out E]. exists out. split; [exact E | ].
  destruct (proj1 (projected_frame_shape (ext := Plain.externals)
                     Plain.toy out 2) E)
    as [reduced [Hk [_ [_ [Hc [_ Ht]]]]]].
  split; [ | exact Ht].
  rewrite Hc. vm_compute in Hk. injection Hk as <-. reflexivity.
Defined.

End ProjectionMore.

(** * [select_stepwise_features] *)

Module StepwiseMore.
Import Py Pandas Stepwise UnivariateFacts.

Lemma select_In {A : Type} (mask : list bool) (l : list A) (x : A) :
  In x (select mask l) -> In x l.
Proof.
  revert l. induction mask as [ | b mask IH]; intros [ | a l]; cbn [select];
    try easy.
  destruct b; [intros [<- | H]; [now left | right; now apply IH] | ].
  intros H. right. now apply IH.
Qed.

Lemma drop_keeps_columns (df X : DataFrame) (c : string * list float) :
  drop "target" df = Ok X -> In c (cols X) ->
  In c (cols df) /\ fst c <> "target".
Proof.
  unfold drop. destruct (has_column "target" df); [ | discriminate].
  intros H. injection H as <-. cbn [cols]. intros Hin.
  apply filter_In in Hin. destruct Hin as [Hin Hc]. split; [exact Hin | ].
  intros E. rewrite E in Hc. discriminate.
Qed.

Lemma selected_has_no_target (df X : DataFrame) (mask : list bool) :
  drop "target" df = Ok X ->
  has_column "target" (mkFrame (nrows X) (select mask (cols X))) = false.
Proof.
  intros HX. unfold has_column, columns. cbn [cols].
  destruct (existsb _ _) eqn:E; [exfalso | reflexivity].
  apply existsb_exists in E. destruct E as [l [Hin Hl]].
  apply String.eqb_eq in Hl. subst l.
  apply in_map_iff in Hin. destruct Hin as [c [Hc Hin]].
  apply select_In in Hin.
  destruct (drop_keeps_columns df X c HX Hin) as [_ Hne]. now elim Hne.
Qed.

Section WithSelector.
Context {sel : Selector}.

(** X19: on a frame with distinct labels, whatever
    [select_stepwise_features] returns is the columns the
    selector's mask keeps among the features of the frame, each with its
    values unchanged and none of them the target, followed by one
    ["target"] column that holds the target cast to integers. *)
Theorem stepwise_attaches_target (df out : DataFrame) (est : estimator)
    (n : Z) (direction : string) :
  NoDup (columns df) ->
  select_stepwise_features df est n direction = inl out ->
  exists X y0 y mask,
    drop "target" df = Ok X /\
    getitem "target" df = Ok y0 /\ astype_int y0 = Ok y /\
    fit_support est n direction X y = Ok mask /\
    nrows out = nrows X /\
    cols out = (select mask (cols X) ++ [("target", y)])%list /\
    (forall c, In c (select mask (cols X)) ->
               In c (cols df) /\ fst c <> "target") /\
    has_column "target" out = true.
Proof.
  intros _. unfold select_stepwise_features.
  destruct (drop "target" df) as [X | e] eqn:HX; cbn [lift and_then];
    [ | discriminate].
  destruct (getitem "target" df) as [y0 | e] eqn:Hy0; cbn [bind lift and_then];
    [ | discriminate].
  destruct (astype_int y0) as [y | e] eqn:Hy; cbn [lift and_then];
    [ | discriminate].
  destruct (fit_support est n direction X y) as [mask | e] eqn:Hm;
    cbn [lift and_then]; [ | discriminate].
  unfold loc_mask.
  destruct (Nat.eqb (List.length mask) (List.length (cols X)));
    cbn [and_then]; [ | discriminate].
  intros H. injection H as <-.
  exists X, y0, y, mask. unfold setitem.
  rewrite (selected_has_no_target df X mask HX). cbn [nrows cols].
  split; [reflexivity | ]. split; [reflexivity | ]. split; [exact Hy | ].
  split; [exact Hm | ]. split; [reflexivity | ]. split; [reflexivity | ].
  split.
  - intros c Hc. exact (drop_keeps_columns df X c HX (select_In mask _ c Hc)).
  - unfold has_column, columns. cbn [cols]. rewrite map_app, existsb_app.
    cbn. apply orb_true_r.
Qed.

(** X20: on a frame without a ["target"] column the function raises
    the [KeyError] of [df.drop], ['target'] not found in axis, whatever
    the selector would do; and a mask that is not as long as the frame has
    features is an [IndexError]. *)
Theorem stepwise_errors (df : DataFrame) (est : estimator) (n : Z)
    (direction : string) :
  (has_column "target" df = false ->
   select_stepwise_features df est n direction
   = inr (Exn (not_in_axis "target"))) /\
  (forall X y0 y mask,
     drop "target" df = Ok X ->
     getitem "target" df = Ok y0 -> astype_int y0 = Ok y ->
     fit_support est n direction X y = Ok mask ->
     List.length mask <> List.length (cols X) ->
     select_stepwise_features df est n direction
     = inr (IndexError "Boolean index has wrong length")).
Proof.
  split.
  - intros H. unfold select_stepwise_features, drop. now rewrite H.
  - intros X y0 y mask HX Hy0 Hy Hm Hlen.
    unfold select_stepwise_features. rewrite HX, Hy0. cbn [bind lift and_then].
    rewrite Hy. cbn [lift and_then]. rewrite Hm. cbn [lift and_then].
    unfold loc_mask. apply Nat.eqb_neq in Hlen. now rewrite Hlen.
Qed.

End WithSelector.

(** A selector for examples: it keeps the first [n] features and casts
    nothing. *)
#[export] Instance first_n : Selector := {|
  estimator := unit;
  astype_int := fun y => Ok y;
  fit_support := fun _ n _ X _ =>
    Ok (map (fun i => Nat.ltb i (Z.to_nat n)) (seq 0 (List.length (cols X))))
|}.

Lemma stepwise_attaches_target_witness :
  exists out,
    select_stepwise_features (sel := first_n) Plain.toy tt 1 "forward" = inl out /\
    columns out = ["size"; "target"].
Proof.
  assert (E : exists out,
            select_stepwise_features (sel := first_n) Plain.toy tt 1 "forward"
            = inl out) by (vm_compute; eauto).
  destruct E as [out E]. exists out. split; [exact E | ].
  destruct (stepwise_attaches_target (sel := first_n) Plain.toy out tt 1
              "forward" ScoresMore.toy_distinct E)
    as [X [y0 [y [mask [HX [Hy0 [Hy [Hm [_ [Hc _]]]]]]]]]].
  unfold columns. rewrite Hc.
  vm_compute in HX. injection HX as <-.
  vm_compute in Hy0. injection Hy0 as <-.
  vm_compute in Hy. injection Hy as <-.
  vm_compute in Hm. injection Hm as <-.
  reflexivity.
Defined.

Lemma stepwise_errors_witness :
  select_stepwise_features (sel := first_n)
    (mkFrame 1 [("size", [Z2F 1])]) tt 1 "forward"
  = inr (Exn (not_in_axis "target")).
Proof.
  apply (stepwise_errors (sel := first_n) (mkFrame 1 [("size", [Z2F 1])])).
  reflexivity.
Defined.

End StepwiseMore.
